(** * run_bc.py: the training / evaluation loop and best-model selection

    A shallow embedding of [train_agent] and [eval_policy] of [run_bc.py].

    - Python [int] values are [Z]; Python [float] values are binary64 floats
      ([PrimFloat.float]), compared with the IEEE comparisons the interpreter uses.
    - The collaborators the script only calls (the agents, the dataset sampler,
      the gym environment, NumPy's [mean] and [std]) are the fields of the class
      [Collaborators]; everything they hide (network parameters, random
      generators) is one abstract [World] threaded through the calls.
    - What the script writes or logs is recorded twice: as the current content of
      the two result files, and as a trace of events in program order.
    - The [while] loop of [train_agent] takes fuel; running out of it is a result of
      its own ([OutOfFuel]), distinct from returning ([Done]) and from raising
      ([Raised]). *)

From Stdlib Require Import ZArith List Bool Lia String Ascii Floats.
From Stdlib Require Import Decimal DecimalString DecimalZ.
Import ListNotations.
Local Open Scope string_scope.
Local Open Scope list_scope.
Local Open Scope Z_scope.

Set Warnings "-inexact-float".

(** ** The parsed command line ([args]) *)

Record Args : Type := mkArgs {
  algo : string;
  env_name : string;
  seed : Z;
  num_epochs : Z;
  num_steps_per_epoch : Z;
  eval_freq : Z;
  eval_episodes : Z;
  batch_size : Z;
  save_best_model : bool
}.

(** The defaults of the argument parser (lines 166-192). *)
Definition default_args : Args :=
  {| algo := "bc";
     env_name := "walker2d-expert-v2";
     seed := 0;
     num_epochs := 500;
     num_steps_per_epoch := 1000;
     eval_freq := 50;
     eval_episodes := 10;
     batch_size := 256;
     save_best_model := false |}.

(** ** The agent classes [train_agent] can import (lines 23-101) *)

Inductive AgentClass : Type :=
| BC | BC_MLE | BC_CVAE | BC_KL | BC_MMD | BC_W | BC_GAN | BC_GAN2.

(** The [if]/[elif] chain on [args.algo]. It has no [else]: for any other name
    the local variable [agent] stays unbound, which is [None] here. *)
Definition select_agent (name : string) : option AgentClass :=
  if String.eqb name "bc" then Some BC
  else if String.eqb name "bc_mle" then Some BC_MLE
  else if String.eqb name "bc_cvae" then Some BC_CVAE
  else if String.eqb name "bc_kl" then Some BC_KL
  else if String.eqb name "bc_mmd" then Some BC_MMD
  else if String.eqb name "bc_w" then Some BC_W
  else if String.eqb name "bc_gan" then Some BC_GAN
  else if String.eqb name "bc_gan2" then Some BC_GAN2
  else None.

Definition recognized_algos : list string :=
  ["bc"; "bc_mle"; "bc_cvae"; "bc_kl"; "bc_mmd"; "bc_w"; "bc_gan"; "bc_gan2"].

(** ** Records *)

(** One row of [evaluations]:
    [[eval_res, eval_res_std, eval_norm_res, eval_norm_res_std]]. *)
Record EvaluationRecord : Type := mkEval {
  eval_res : float;
  eval_res_std : float;
  eval_norm_res : float;
  eval_norm_res_std : float
}.

(** The dictionary [best_res] dumped to [best_score.txt]. *)
Record BestScoreRecord : Type := mkBest {
  epoch : Z;
  best_normalized_score_avg : float;
  best_normalized_score_std : float;
  best_raw_score_avg : float;
  best_raw_score_std : float
}.

Definition best_res_of (curr_epoch : Z) (r : EvaluationRecord) : BestScoreRecord :=
  {| epoch := curr_epoch;
     best_normalized_score_avg := eval_norm_res r;
     best_normalized_score_std := eval_norm_res_std r;
     best_raw_score_avg := eval_res r;
     best_raw_score_std := eval_res_std r |}.

(** ** Observable events, in program order *)

Inductive event : Type :=
| EvLoadBuffer                                   (* lines 19-21 *)
| EvBanner (training_iters : Z)                  (* line 109 *)
| EvTrain (cls : AgentClass) (iterations batch : Z)  (* lines 110-112 *)
| EvTrainedEpochs (curr_epoch : Z)               (* line 115 *)
| EvMakeEnv (name : string)                      (* line 139 *)
| EvSeedEnv (s : Z)                              (* line 140 *)
| EvEpisode (traj_return : float)                (* lines 144-150 *)
| EvSaveEval (history : list EvaluationRecord)   (* line 120 *)
| EvSaveModel                                    (* line 127 *)
| EvWriteBest (r : BestScoreRecord).             (* lines 132-133 *)

Inductive exn : Type :=
| UnboundLocalError    (* [agent] used before assignment *)
| ZeroDivisionError.   (* [training_iters // 0] *)

Definition is_train (e : event) : bool :=
  match e with EvTrain _ _ _ => true | _ => false end.

(** The two calls that set up an evaluation environment. *)
Definition is_env_setup (e : event) : bool :=
  match e with EvMakeEnv _ | EvSeedEnv _ => true | _ => false end.

Definition is_write_best (e : event) : bool :=
  match e with EvWriteBest _ => true | _ => false end.

(** The events that mark the cadence of the loop: a training burst, the epoch
    logged after it, and the start of an evaluation. *)
Definition is_cadence (e : event) : bool :=
  match e with
  | EvTrain _ _ _ | EvTrainedEpochs _ | EvMakeEnv _ => true
  | _ => false
  end.

(** Number of passes through the loop body that reached [agent.train]. *)
Definition passes (tr : list event) : nat := List.length (filter is_train tr).

(** [ceil(a / b)] with Python's floor division: [-((-a) // b)]. *)
Definition ceil_div (a b : Z) : Z := - ((- a) / b).

(** ** Python float comparisons *)

(** [x >= y] as Python evaluates it on floats: false as soon as one side is NaN. *)
Definition float_ge (x y : float) : bool := PrimFloat.leb y x.

(** NaN is the only float that does not compare equal to itself. *)
Definition is_nan (x : float) : bool := negb (PrimFloat.leb x x).

(** ** The collaborators *)

(** What [run_bc.py] imports and calls but does not define. Every call is taken
    to return. [World] is the hidden state a call may read and change. *)
Class Collaborators : Type := {
  World : Type;
  Env : Type;
  (** [d4rl.qlearning_dataset(env)] and [Data_Sampler(...)] *)
  load_buffer : Args -> World -> World;
  (** [Agent(state_dim=..., ...)] of the selected class *)
  construct : AgentClass -> Args -> World -> World;
  (** [agent.train(data_sampler, iterations=..., batch_size=...)] *)
  agent_train : Z -> Z -> World -> World;
  (** [gym.make(env_name)] *)
  gym_make : string -> World -> Env;
  (** [eval_env.seed(s)] *)
  env_seed : Z -> Env -> Env;
  (** one episode, from [eval_env.reset()] until [done]: the rewards that
      [eval_env.step(policy.sample_action(...))] returned, in order *)
  run_episode : World -> Env -> list float * World * Env;
  (** [eval_env.get_normalized_score(s)] *)
  get_normalized_score : Env -> float -> float;
  np_mean : list float -> float;
  np_std : list float -> float
}.

(** ** [eval_policy] (lines 138-160) *)

(** [traj_return = 0.] followed by [traj_return += reward] for each step. *)
Definition traj_return (rewards : list float) : float :=
  fold_left PrimFloat.add rewards 0%float.

(** The [for _ in range(eval_episodes)] loop: the scores appended so far, the
    world, the environment and the events. *)
Fixpoint rollouts `{Collaborators} (n : nat) (scores : list float) (w : World) (e : Env)
  : list float * World * Env * list event :=
  match n with
  | O => (scores, w, e, [])
  | S n' =>
      let '(rewards, w1, e1) := run_episode w e in
      let score := traj_return rewards in
      let '(scores', w2, e2, evs) := rollouts n' (scores ++ [score]) w1 e1 in
      (scores', w2, e2, EvEpisode score :: evs)
  end.

Definition eval_policy `{Collaborators} (w : World) (name : string) (seed_ eval_episodes_ : Z)
  : EvaluationRecord * World * list event :=
  let eval_env := gym_make name w in
  let eval_env := env_seed (seed_ + 100) eval_env in
  let '(scores, w', eval_env, evs) := rollouts (Z.to_nat eval_episodes_) [] w eval_env in
  let avg_reward := np_mean scores in
  let std_reward := np_std scores in
  let normalized_scores := map (get_normalized_score eval_env) scores in
  let avg_norm_score := get_normalized_score eval_env avg_reward in
  let std_norm_score := np_std normalized_scores in
  (mkEval avg_reward std_reward avg_norm_score std_norm_score, w',
   EvMakeEnv name :: EvSeedEnv (seed_ + 100) :: evs).

(** The list [scores] that [eval_policy] aggregates. *)
Definition episode_scores `{Collaborators} (w : World) (name : string) (seed_ eval_episodes_ : Z)
  : list float :=
  let eval_env := env_seed (seed_ + 100) (gym_make name w) in
  fst (fst (fst (rollouts (Z.to_nat eval_episodes_) [] w eval_env))).

(** The environment [eval_policy] ends up with, whose [get_normalized_score] it calls. *)
Definition final_env `{Collaborators} (w : World) (name : string) (seed_ eval_episodes_ : Z)
  : Env :=
  let eval_env := env_seed (seed_ + 100) (gym_make name w) in
  snd (fst (rollouts (Z.to_nat eval_episodes_) [] w eval_env)).

(** ** [train_agent] (lines 17-133) *)

(** The local variables of [train_agent], the two files under [output_dir], the
    saved checkpoint and the trace. The three file fields hold what this run
    has written there last, and [None] as long as it has written nothing:
    whatever an earlier run left in the directory is not part of the state. *)
Record LoopState `{Collaborators} : Type := mkState {
  world : World;
  evaluations : list EvaluationRecord;
  training_iters : Z;
  best_score : float;
  eval_file : option (list EvaluationRecord);   (* [eval.npy] *)
  best_score_file : option BestScoreRecord;     (* [best_score.txt] *)
  saved_model : option World;                   (* [agent.save_model(output_dir)] *)
  trace : list event
}.

Arguments mkState {_} _ _ _ _ _ _ _ _.

Definition max_timesteps (args : Args) : Z :=
  num_epochs args * num_steps_per_epoch args.

(** Lines 103-106, after the buffer is loaded and the agent constructed. *)
Definition initial_state `{Collaborators} (w : World) : LoopState :=
  {| world := w;
     evaluations := [];
     training_iters := 0;
     best_score := (-100)%float;
     eval_file := None;
     best_score_file := None;
     saved_model := None;
     trace := [EvLoadBuffer] |}.

(** Lines 125-133: record and save the best model. *)
Definition consider `{Collaborators} (save : bool) (s : LoopState)
  (r : EvaluationRecord) (curr_epoch : Z) : LoopState :=
  if float_ge (eval_norm_res r) (best_score s) then
    let best_res := best_res_of curr_epoch r in
    {| world := world s;
       evaluations := evaluations s;
       training_iters := training_iters s;
       best_score := eval_norm_res r;
       eval_file := eval_file s;
       best_score_file := Some best_res;
       saved_model := if save then Some (world s) else saved_model s;
       trace := trace s ++ (if save then [EvSaveModel] else []) ++ [EvWriteBest best_res] |}
  else s.

(** Feeding a sequence of evaluations, each with the epoch it was made at,
    through the selection step. *)
Definition consider_all `{Collaborators} (save : bool) (s : LoopState)
  (l : list (EvaluationRecord * Z)) : LoopState :=
  fold_left (fun st re => consider save st (fst re) (snd re)) l s.

(** One pass through the body of the [while] loop (lines 108-133). *)
Definition cycle `{Collaborators} (agent : option AgentClass) (args : Args) (s : LoopState)
  : LoopState + exn * LoopState :=
  let iterations := eval_freq args * num_steps_per_epoch args in
  let tr1 := trace s ++ [EvBanner (training_iters s)] in
  match agent with
  | None =>
      inr (UnboundLocalError,
           mkState (world s) (evaluations s) (training_iters s) (best_score s)
                   (eval_file s) (best_score_file s) (saved_model s) tr1)
  | Some cls =>
      let w1 := agent_train iterations (batch_size args) (world s) in
      let tr2 := tr1 ++ [EvTrain cls iterations (batch_size args)] in
      let training_iters' := training_iters s + iterations in
      if num_steps_per_epoch args =? 0 then
        inr (ZeroDivisionError,
             mkState w1 (evaluations s) training_iters' (best_score s)
                     (eval_file s) (best_score_file s) (saved_model s) tr2)
      else
        let curr_epoch := training_iters' / num_steps_per_epoch args in
        let tr3 := tr2 ++ [EvTrainedEpochs curr_epoch] in
        let '(r, w2, evs) := eval_policy w1 (env_name args) (seed args) (eval_episodes args) in
        let evaluations' := evaluations s ++ [r] in
        let tr4 := tr3 ++ evs ++ [EvSaveEval evaluations'] in
        inl (consider (save_best_model args)
               (mkState w2 evaluations' training_iters' (best_score s)
                        (Some evaluations') (best_score_file s) (saved_model s) tr4)
               r curr_epoch)
  end.

Inductive outcome `{Collaborators} : Type :=
| Done (s : LoopState)                 (* the loop condition became false *)
| Raised (e : exn) (s : LoopState)     (* an exception left the function *)
| OutOfFuel (s : LoopState).           (* still looping when the fuel ran out *)

Arguments Done {_} _.
Arguments Raised {_} _ _.
Arguments OutOfFuel {_} _.

Definition final_state `{Collaborators} (o : outcome) : LoopState :=
  match o with Done s | Raised _ s | OutOfFuel s => s end.

(** The [while training_iters < max_timesteps] loop (line 107). *)
Fixpoint train_loop `{Collaborators} (fuel : nat) (agent : option AgentClass) (args : Args)
  (s : LoopState) : outcome :=
  if training_iters s <? max_timesteps args then
    match fuel with
    | O => OutOfFuel s
    | S fuel' =>
        match cycle agent args s with
        | inl s' => train_loop fuel' agent args s'
        | inr (e, s') => Raised e s'
        end
    end
  else Done s.

Definition train_agent `{Collaborators} (fuel : nat) (args : Args) (w : World) : outcome :=
  let w1 := load_buffer args w in
  let agent := select_agent (algo args) in
  let w2 := match agent with Some cls => construct cls args w1 | None => w1 end in
  train_loop fuel agent args (initial_state w2).

(** ** Projections used to state the properties *)

(** The running best and the content of [best_score.txt]. *)
Definition sel_state : Type := float * option BestScoreRecord.

(** The normalized average of an evaluation fed to the selection step. *)
Definition score (re : EvaluationRecord * Z) : float := eval_norm_res (fst re).

(** What the selection step writes when it accepts [re]. *)
Definition written (re : EvaluationRecord * Z) : BestScoreRecord :=
  best_res_of (snd re) (fst re).

(** [consider] restricted to [best_score] and [best_score.txt]. *)
Definition select (st : sel_state) (re : EvaluationRecord * Z) : sel_state :=
  if float_ge (score re) (fst st) then (score re, Some (written re)) else st.

Definition sel `{Collaborators} (s : LoopState) : sel_state :=
  (best_score s, best_score_file s).

(** The histories handed to [np.save], oldest first. *)
Fixpoint saved_histories (tr : list event) : list (list EvaluationRecord) :=
  match tr with
  | [] => []
  | EvSaveEval h :: tr' => h :: saved_histories tr'
  | _ :: tr' => saved_histories tr'
  end.

(** The non-empty prefixes of a list, shortest first. *)
Definition prefixes {A : Type} (l : list A) : list (list A) :=
  map (fun k => firstn k l) (seq 1 (List.length l)).

(** The cadence events of cycle [k] (counted from 1) of a run of class [cls]. *)
Definition cadence_of (cls : AgentClass) (args : Args) (k : nat) : list event :=
  [EvTrain cls (eval_freq args * num_steps_per_epoch args) (batch_size args);
   EvTrainedEpochs (Z.of_nat k * eval_freq args);
   EvMakeEnv (env_name args)].

(** What the selection step may append to the trace. *)
Definition selection_events (evs : list event) : Prop :=
  evs = [] \/ exists b, evs = [EvWriteBest b] \/ evs = [EvSaveModel; EvWriteBest b].

(** What the selection step appends when the running best is [best]. *)
Definition selection_trace (save : bool) (best : float) (r : EvaluationRecord)
  (curr_epoch : Z) : list event :=
  if float_ge (eval_norm_res r) best then
    (if save then [EvSaveModel] else []) ++ [EvWriteBest (best_res_of curr_epoch r)]
  else [].

(** ** A scripted instance of the collaborators

    The world is the queue of episodes still to be played, each the list of its
    rewards; training does not touch it. The normalizer divides by 100. [mean]
    and [std] add left to right from [0.], as NumPy's reduction does on fewer
    than eight elements. *)

Definition float_sum (l : list float) : float := fold_left PrimFloat.add l 0%float.

Definition float_of_len (l : list float) : float :=
  PrimFloat.of_uint63 (Uint63.of_Z (Z.of_nat (List.length l))).

Definition seq_mean (l : list float) : float :=
  (float_sum l / float_of_len l)%float.

Definition seq_std (l : list float) : float :=
  let m := seq_mean l in
  let sq := map (fun x => ((x - m) * (x - m))%float) l in
  PrimFloat.sqrt (float_sum sq / float_of_len l)%float.

#[export] Instance scripted : Collaborators := {|
  World := list (list float);
  Env := unit;
  load_buffer := fun _ w => w;
  construct := fun _ _ w => w;
  agent_train := fun _ _ w => w;
  gym_make := fun _ _ => tt;
  env_seed := fun _ e => e;
  run_episode := fun w e => (hd [] w, tl w, e);
  get_normalized_score := fun _ r => (r / 100)%float;
  np_mean := seq_mean;
  np_std := seq_std
|}.

(** ** Concrete configurations and inputs *)

(** Three one-step episodes with rewards 10, 20 and 30. *)
Definition stub_episodes : list (list float) := [[10]; [20]; [30]]%float.

(** One cycle of one epoch of one step, evaluated over one episode. *)
Definition one_cycle_args : Args :=
  {| algo := "bc"; env_name := "stub"; seed := 0;
     num_epochs := 1; num_steps_per_epoch := 1; eval_freq := 1;
     eval_episodes := 1; batch_size := 256; save_best_model := true |}.

(** The comment of the parser names ['pcq'], which [train_agent] does not handle. *)
Definition pcq_args : Args :=
  {| algo := "pcq"; env_name := "stub"; seed := 0;
     num_epochs := 500; num_steps_per_epoch := 1000; eval_freq := 50;
     eval_episodes := 10; batch_size := 256; save_best_model := false |}.

Definition pcq_no_budget_args : Args :=
  {| algo := "pcq"; env_name := "stub"; seed := 0;
     num_epochs := 0; num_steps_per_epoch := 1000; eval_freq := 50;
     eval_episodes := 10; batch_size := 256; save_best_model := false |}.

Definition zero_freq_args : Args :=
  {| algo := "bc"; env_name := "stub"; seed := 0;
     num_epochs := 500; num_steps_per_epoch := 1000; eval_freq := 0;
     eval_episodes := 10; batch_size := 256; save_best_model := false |}.

(** An evaluation with the given normalized average. *)
Definition eval_with (norm : float) : EvaluationRecord :=
  {| eval_res := (norm * 100)%float; eval_res_std := 0%float;
     eval_norm_res := norm; eval_norm_res_std := 0%float |}.

Arguments eval_with norm%_float.

(** Evaluations at epochs 50 to 200; the maximum 0.75 is reached at 100 and 150. *)
Definition sample_history : list (EvaluationRecord * Z) :=
  [(eval_with 0.5, 50); (eval_with 0.75, 100); (eval_with 0.75, 150);
   (eval_with 0.25, 200)].

(** ** What a number of completed passes should leave *)

(** The records [k] completed passes append, oldest first, and the world they
    leave, starting from the world [w]: each pass trains the current world for
    one burst and evaluates what training left. A reference for the loop, not
    part of it. *)
Fixpoint after_cycles `{Collaborators} (args : Args) (k : nat) (w : World)
  : list EvaluationRecord * World :=
  match k with
  | O => ([], w)
  | S k' =>
      let ep := eval_policy
                  (agent_train (eval_freq args * num_steps_per_epoch args)
                               (batch_size args) (snd (after_cycles args k' w)))
                  (env_name args) (seed args) (eval_episodes args) in
      (fst (after_cycles args k' w) ++ [fst (fst ep)], snd (fst ep))
  end.

(** The world the loop starts from (lines 19-101). *)
Definition start_world `{Collaborators} (args : Args) (w : World) : World :=
  match select_agent (algo args) with
  | Some cls => construct cls args (load_buffer args w)
  | None => load_buffer args w
  end.

(** The records written to [best_score.txt], oldest first. *)
Fixpoint written_records (tr : list event) : list BestScoreRecord :=
  match tr with
  | [] => []
  | EvWriteBest b :: tr' => b :: written_records tr'
  | _ :: tr' => written_records tr'
  end.

(** An unrecognized name with a positive budget and a zero burst. *)
Definition pcq_zero_freq_args : Args :=
  {| algo := "pcq"; env_name := "stub"; seed := 0;
     num_epochs := 500; num_steps_per_epoch := 1000; eval_freq := 0;
     eval_episodes := 10; batch_size := 256; save_best_model := false |}.

(** Three cycles of one epoch of two steps, one episode each. *)
Definition three_cycle_args : Args :=
  {| algo := "bc_w"; env_name := "stub"; seed := 7;
     num_epochs := 3; num_steps_per_epoch := 2; eval_freq := 1;
     eval_episodes := 1; batch_size := 256; save_best_model := true |}.

(** ** More projections of the trace and of the configuration *)

Definition is_save_model (e : event) : bool :=
  match e with EvSaveModel => true | _ => false end.

(** The two events of the selection step. *)
Definition is_selection (e : event) : bool :=
  match e with EvSaveModel | EvWriteBest _ => true | _ => false end.

(** The size of one training burst, [iterations] of line 108. *)
Definition burst (args : Args) : Z := eval_freq args * num_steps_per_epoch args.

(** ** The entry point of the script (lines 163-242) *)

(** The parsed flags the run name is built from: those [train_agent] reads
    ([loop_args]) and the ones only the entry point and the agents read. *)
Record CliArgs : Type := mkCli {
  loop_args : Args;
  exp : string;
  dir : string;
  beta_schedule : string;
  T : Z;
  model : string;
  lr : float
}.

(** [str(z)] of a Python [int], as an f-string renders [{args.seed}]. *)
Definition py_str (z : Z) : string := NilZero.string_of_int (Z.to_int z).

(** Lines 205-206. [format_lr] is Python's rendering of [{args.lr:.5f}]. *)
Definition file_name (format_lr : float -> string) (a : CliArgs) : string :=
  (env_name (loop_args a) ++ "|" ++ exp a ++ "|" ++ beta_schedule a
   ++ "|T-" ++ py_str (T a) ++ "|" ++ algo (loop_args a) ++ "|" ++ model a
   ++ "|lr" ++ format_lr (lr a) ++ "|" ++ py_str (seed (loop_args a)))%string.

(** [file_name] without its last field, the seed. *)
Definition name_base (format_lr : float -> string) (a : CliArgs) : string :=
  (env_name (loop_args a) ++ "|" ++ exp a ++ "|" ++ beta_schedule a
   ++ "|T-" ++ py_str (T a) ++ "|" ++ algo (loop_args a) ++ "|" ++ model a
   ++ "|lr" ++ format_lr (lr a))%string.

(** Line 202. *)
Definition output_dir (a : CliArgs) : string := ("results/" ++ dir a)%string.

Definition starts_with_sep (s : string) : bool :=
  match s with
  | String c _ => Ascii.eqb c "/"
  | EmptyString => false
  end.

Fixpoint ends_with_sep (s : string) : bool :=
  match s with
  | EmptyString => false
  | String c EmptyString => Ascii.eqb c "/"
  | String _ s' => ends_with_sep s'
  end.

(** [os.path.join(a, b)] of [posixpath]: an absolute [b] replaces [a]; otherwise
    [b] is put after [a], with a separator unless [a] is empty or ends with one. *)
Definition path_join (a b : string) : string :=
  if starts_with_sep b then b
  else if (String.eqb a "" || ends_with_sep a)%bool then (a ++ b)%string
  else (a ++ "/" ++ b)%string.

(** Line 208. *)
Definition results_dir (format_lr : float -> string) (a : CliArgs) : string :=
  path_join (output_dir a) (file_name format_lr a).

(** The same command line with another [--seed]. *)
Definition with_seed (a : CliArgs) (s : Z) : CliArgs :=
  {| loop_args :=
       {| algo := algo (loop_args a);
          env_name := env_name (loop_args a);
          seed := s;
          num_epochs := num_epochs (loop_args a);
          num_steps_per_epoch := num_steps_per_epoch (loop_args a);
          eval_freq := eval_freq (loop_args a);
          eval_episodes := eval_episodes (loop_args a);
          batch_size := batch_size (loop_args a);
          save_best_model := save_best_model (loop_args a) |};
     exp := exp a;
     dir := dir a;
     beta_schedule := beta_schedule a;
     T := T a;
     model := model a;
     lr := lr a |}.

(** The defaults of the parser for the flags of [CliArgs] (lines 166-192). *)
Definition default_cli : CliArgs :=
  {| loop_args := default_args;
     exp := "exp_1";
     dir := "tests";
     beta_schedule := "linear";
     T := 100;
     model := "MLP";
     lr := 0.0003%float |}.

(** Negative flags: a budget of 6 iterations covered by bursts of 3. *)
Definition negative_flags_args : Args :=
  {| algo := "bc"; env_name := "stub"; seed := 0;
     num_epochs := -2; num_steps_per_epoch := -3; eval_freq := -1;
     eval_episodes := 1; batch_size := 256; save_best_model := false |}.

Definition negative_freq_args : Args :=
  {| algo := "bc"; env_name := "stub"; seed := 0;
     num_epochs := 500; num_steps_per_epoch := 1000; eval_freq := -1;
     eval_episodes := 10; batch_size := 256; save_best_model := false |}.

(** Three cycles that evaluate over no episode at all. *)
Definition no_episode_args : Args :=
  {| algo := "bc"; env_name := "stub"; seed := 0;
     num_epochs := 3; num_steps_per_epoch := 1; eval_freq := 1;
     eval_episodes := 0; batch_size := 256; save_best_model := true |}.

(** ** IEEE comparison facts used by the selection policy *)

Module PyFloat.

Lemma SFleb_trans a b c :
  SFleb a b = true -> SFleb b c = true -> SFleb a c = true.
Proof.
  unfold SFleb, SFcompare.
  destruct a as [sa|sa| |sa ma ea], b as [sb|sb| |sb mb eb], c as [sc|sc| |sc mc ec];
    try destruct sa; try destruct sb; try destruct sc; simpl; try congruence;
    try (destruct (Z.compare_spec ea eb); try congruence;
         destruct (Z.compare_spec eb ec); try congruence;
         destruct (Z.compare_spec ea ec); try congruence; try lia; subst;
         rewrite ?Pos.compare_cont_spec; simpl;
         destruct (Pos.compare_spec ma mb); simpl; try congruence;
         destruct (Pos.compare_spec mb mc); simpl; try congruence;
         destruct (Pos.compare_spec ma mc); simpl; try congruence; lia).
Qed.

Lemma SFleb_total a b :
  SFleb a a = true -> SFleb b b = true -> SFleb a b = false -> SFleb b a = true.
Proof.
  unfold SFleb, SFcompare.
  destruct a as [sa|sa| |sa ma ea], b as [sb|sb| |sb mb eb];
    try destruct sa; try destruct sb; simpl; try congruence;
    intros _ _;
    destruct (Z.compare_spec ea eb); destruct (Z.compare_spec eb ea);
      try congruence; try lia; subst;
    rewrite ?Pos.compare_cont_spec; simpl;
    destruct (Pos.compare_spec ma mb); destruct (Pos.compare_spec mb ma);
      simpl; try congruence; lia.
Qed.

Lemma SFleb_refl_r a b : SFleb a b = true -> SFleb b b = true.
Proof.
  unfold SFleb, SFcompare.
  destruct a as [sa|sa| |sa ma ea], b as [sb|sb| |sb mb eb];
    try destruct sa; try destruct sb; simpl; try congruence;
    intros _; rewrite Z.compare_refl, ?Pos.compare_cont_spec, Pos.compare_refl;
    reflexivity.
Qed.

Lemma SFltb_not_leb a b : SFltb a b = true -> SFleb b a = false.
Proof.
  unfold SFltb, SFleb, SFcompare.
  destruct a as [sa|sa| |sa ma ea], b as [sb|sb| |sb mb eb];
    try destruct sa; try destruct sb; simpl; try congruence;
    destruct (Z.compare_spec ea eb); destruct (Z.compare_spec eb ea);
      try congruence; try lia; subst;
    rewrite ?Pos.compare_cont_spec; simpl;
    destruct (Pos.compare_spec ma mb); destruct (Pos.compare_spec mb ma);
      simpl; try congruence; lia.
Qed.

Lemma SFeqb_leb a b : SFeqb a b = true -> SFleb b a = true.
Proof.
  unfold SFeqb, SFleb, SFcompare.
  destruct a as [sa|sa| |sa ma ea], b as [sb|sb| |sb mb eb];
    try destruct sa; try destruct sb; simpl; try congruence;
    destruct (Z.compare_spec ea eb); destruct (Z.compare_spec eb ea);
      try congruence; try lia; subst;
    rewrite ?Pos.compare_cont_spec; simpl;
    destruct (Pos.compare_spec ma mb); destruct (Pos.compare_spec mb ma);
      simpl; try congruence; lia.
Qed.

Lemma leb_trans x y z :
  PrimFloat.leb x y = true -> PrimFloat.leb y z = true -> PrimFloat.leb x z = true.
Proof. rewrite !leb_spec. apply SFleb_trans. Qed.

Lemma leb_total x y :
  PrimFloat.leb x x = true -> PrimFloat.leb y y = true ->
  PrimFloat.leb x y = false -> PrimFloat.leb y x = true.
Proof. rewrite !leb_spec. apply SFleb_total. Qed.

Lemma leb_refl_r x y : PrimFloat.leb x y = true -> PrimFloat.leb y y = true.
Proof. rewrite !leb_spec. apply SFleb_refl_r. Qed.

Lemma ltb_not_leb x y : PrimFloat.ltb x y = true -> PrimFloat.leb y x = false.
Proof. rewrite ltb_spec, leb_spec. apply SFltb_not_leb. Qed.

Lemma eqb_leb x y : PrimFloat.eqb x y = true -> PrimFloat.leb y x = true.
Proof. rewrite eqb_spec, leb_spec. apply SFeqb_leb. Qed.

End PyFloat.

(** ** The selection policy on what it decides on *)

Module Selection.

Lemma select_stable l b p :
  Forall (fun re => float_ge (score re) b = false) l ->
  fold_left select l (b, p) = (b, p).
Proof.
  induction 1 as [|re l Hre _ IH]; simpl; [reflexivity|].
  unfold select at 2; simpl. rewrite Hre. exact IH.
Qed.

(** Either nothing in [l] reaches the running best [b], or the result is what
    the last record that reached the running best of its time wrote; that
    record dominates every earlier comparable one and no later one reaches it. *)
Lemma select_split l : forall b p,
  PrimFloat.leb b b = true ->
  (Forall (fun re => float_ge (score re) b = false) l /\
   fold_left select l (b, p) = (b, p)) \/
  (exists l1 x l2,
      l = l1 ++ x :: l2 /\
      fold_left select l (b, p) = (score x, Some (written x)) /\
      float_ge (score x) b = true /\
      Forall (fun y => float_ge (score x) (score y) = true \/ is_nan (score y) = true) l1 /\
      Forall (fun y => float_ge (score y) (score x) = false) l2).
Proof.
  induction l as [|z l IH] using rev_ind; intros b p Hb.
  - left. split; [constructor | reflexivity].
  - rewrite fold_left_app; simpl.
    destruct (IH b p Hb) as [[Hall Heq] | (l1 & x & l2 & Hl & Heq & Hx & H1 & H2)];
      rewrite Heq; unfold select; simpl;
      destruct (float_ge (score z) _) eqn:Hz.
    + right. exists l, z, []. repeat split; auto.
      * rewrite Forall_forall in *. intros y Hy. specialize (Hall y Hy).
        unfold float_ge, is_nan in *.
        destruct (PrimFloat.leb (score y) (score y)) eqn:Hyy; [left | now right].
        eapply PyFloat.leb_trans; [|exact Hz].
        apply PyFloat.leb_total; auto.
    + left. split; [|reflexivity].
      apply Forall_app. split; [exact Hall | repeat constructor; exact Hz].
    + right. exists (l1 ++ x :: l2), z, []. unfold float_ge, is_nan in *.
      assert (Hxx : PrimFloat.leb (score x) (score x) = true)
        by (eapply PyFloat.leb_refl_r; exact Hx).
      repeat split; auto.
      * subst l. reflexivity.
      * eapply PyFloat.leb_trans; eauto.
      * apply Forall_app. split; [|constructor].
        -- eapply Forall_impl; [|exact H1]. intros y [Hy | Hy]; [left | now right].
           eapply PyFloat.leb_trans; eauto.
        -- now left.
        -- eapply Forall_impl; [|exact H2]. intros y Hy; simpl in Hy.
           destruct (PrimFloat.leb (score y) (score y)) eqn:Hyy; [left | now right].
           eapply PyFloat.leb_trans; [|exact Hz].
           apply PyFloat.leb_total; auto.
    + right. exists l1, x, (l2 ++ [z]). repeat split; auto.
      * subst l. now rewrite <- app_assoc.
      * apply Forall_app. split; [exact H2 | repeat constructor; exact Hz].
Qed.

Section WithCollaborators.
Context `{Collaborators}.

Lemma sel_consider save s r e :
  sel (consider save s r e) = select (sel s) (r, e).
Proof.
  unfold consider, select, sel, score, written; simpl.
  destruct (float_ge (eval_norm_res r) (best_score s)); reflexivity.
Qed.

Lemma consider_all_snoc save s l re :
  consider_all save s (l ++ [re]) = consider save (consider_all save s l) (fst re) (snd re).
Proof. unfold consider_all. now rewrite fold_left_app. Qed.

Lemma sel_consider_all save l : forall s,
  sel (consider_all save s l) = fold_left select l (sel s).
Proof.
  induction l as [|[r e] l IH]; intros s; [reflexivity|].
  unfold consider_all in *; simpl. now rewrite IH, sel_consider.
Qed.

End WithCollaborators.

End Selection.

(** ** The evaluator *)

Section Evaluator.
Context `{Collaborators}.

Lemma rollouts_spec n : forall scores w e,
  exists new,
    fst (fst (fst (rollouts n scores w e))) = scores ++ new /\
    List.length new = n /\
    snd (rollouts n scores w e) = map EvEpisode new.
Proof.
  induction n as [|n IH]; intros scores w e; simpl.
  - exists []. now rewrite app_nil_r.
  - destruct (run_episode w e) as [[rewards w1] e1].
    destruct (IH (scores ++ [traj_return rewards]) w1 e1) as (new & Hs & Hlen & Hev).
    destruct (rollouts n (scores ++ [traj_return rewards]) w1 e1) as [[[sc w2] e2] evs].
    simpl in *. exists (traj_return rewards :: new). subst.
    rewrite <- app_assoc. repeat split; simpl; auto.
Qed.

Lemma eval_policy_spec w name sd n :
  let scores := episode_scores w name sd n in
  let env := final_env w name sd n in
  fst (fst (eval_policy w name sd n)) =
    mkEval (np_mean scores) (np_std scores)
           (get_normalized_score env (np_mean scores))
           (np_std (map (get_normalized_score env) scores)) /\
  snd (eval_policy w name sd n) =
    EvMakeEnv name :: EvSeedEnv (sd + 100) :: map EvEpisode scores /\
  List.length scores = Z.to_nat n.
Proof.
  unfold eval_policy, episode_scores, final_env.
  destruct (rollouts_spec (Z.to_nat n) [] w (env_seed (sd + 100) (gym_make name w)))
    as (new & Hs & Hlen & Hev).
  destruct (rollouts (Z.to_nat n) [] w (env_seed (sd + 100) (gym_make name w)))
    as [[[sc w2] e2] evs].
  simpl in *. subst. repeat split; auto.
Qed.

End Evaluator.

(** ** One pass through the loop body *)

Section Cycle.
Context `{Collaborators}.

Lemma selection_trace_events save best r e :
  selection_events (selection_trace save best r e).
Proof.
  unfold selection_trace, selection_events.
  destruct (float_ge (eval_norm_res r) best); [|now left].
  right. eexists. destruct save; [right | left]; reflexivity.
Qed.

Lemma consider_frame save s r e :
  world (consider save s r e) = world s /\
  evaluations (consider save s r e) = evaluations s /\
  training_iters (consider save s r e) = training_iters s /\
  eval_file (consider save s r e) = eval_file s /\
  trace (consider save s r e) = trace s ++ selection_trace save (best_score s) r e.
Proof.
  unfold consider, selection_trace.
  destruct (float_ge (eval_norm_res r) (best_score s)); simpl.
  - repeat split; auto.
  - repeat split; auto. now rewrite app_nil_r.
Qed.

(** Every way a pass can end. *)
Lemma cycle_cases agent args s :
  let it := eval_freq args * num_steps_per_epoch args in
  match cycle agent args s with
  | inl s' =>
      exists cls r scores evs,
        agent = Some cls /\ num_steps_per_epoch args <> 0 /\
        evaluations s' = evaluations s ++ [r] /\
        training_iters s' = training_iters s + it /\
        eval_file s' = Some (evaluations s') /\
        sel s' = select (sel s) (r, (training_iters s + it) / num_steps_per_epoch args) /\
        evs = selection_trace (save_best_model args) (best_score s) r
                ((training_iters s + it) / num_steps_per_epoch args) /\
        trace s' =
          trace s
          ++ [EvBanner (training_iters s);
              EvTrain cls it (batch_size args);
              EvTrainedEpochs ((training_iters s + it) / num_steps_per_epoch args);
              EvMakeEnv (env_name args);
              EvSeedEnv (seed args + 100)]
          ++ map EvEpisode scores
          ++ EvSaveEval (evaluations s ++ [r]) :: evs /\
        r = fst (fst (eval_policy (agent_train it (batch_size args) (world s))
                                  (env_name args) (seed args) (eval_episodes args)))
  | inr (e, s') =>
      evaluations s' = evaluations s /\ sel s' = sel s /\ eval_file s' = eval_file s /\
      ((agent = None /\ e = UnboundLocalError /\
        training_iters s' = training_iters s /\
        trace s' = trace s ++ [EvBanner (training_iters s)]) \/
       (exists cls, agent = Some cls /\ num_steps_per_epoch args = 0 /\
                    e = ZeroDivisionError /\
                    trace s' = trace s ++ [EvBanner (training_iters s);
                                           EvTrain cls it (batch_size args)]))
  end.
Proof.
  unfold cycle. destruct agent as [cls|]; simpl.
  - destruct (num_steps_per_epoch args =? 0) eqn:Hst.
    + apply Z.eqb_eq in Hst. repeat split; auto. right. exists cls.
      repeat split; auto. now rewrite <- app_assoc.
    + apply Z.eqb_neq in Hst.
      destruct (eval_policy_spec
                  (agent_train (eval_freq args * num_steps_per_epoch args)
                               (batch_size args) (world s))
                  (env_name args) (seed args) (eval_episodes args)) as (Hr & Hev & _).
      destruct (eval_policy _ _ _ _) as [[r w2] evs]. simpl in Hr, Hev.
      match goal with |- context [consider ?sv ?st ?rr ?ee] =>
        destruct (consider_frame sv st rr ee) as (_ & He & Hti & Hf & Htr);
        pose proof (Selection.sel_consider sv st rr ee) as Hs
      end.
      simpl in *. eexists cls, r, _, _.
      rewrite He, Hti, Hf, Hs, Htr, Hev.
      repeat split; auto.
      rewrite <- !app_assoc. simpl. rewrite <- ?app_assoc. reflexivity.
  - repeat split; auto.
Qed.

End Cycle.

(** ** Reading the trace *)

Lemma filter_cadence_episodes l : filter is_cadence (map EvEpisode l) = [].
Proof. induction l; simpl; auto. Qed.

Lemma filter_train_episodes l : filter is_train (map EvEpisode l) = [].
Proof. induction l; simpl; auto. Qed.

Lemma filter_env_setup_episodes l : filter is_env_setup (map EvEpisode l) = [].
Proof. induction l; simpl; auto. Qed.

Lemma filter_write_best_episodes l : filter is_write_best (map EvEpisode l) = [].
Proof. induction l; simpl; auto. Qed.

Lemma saved_histories_episodes l : saved_histories (map EvEpisode l) = [].
Proof. induction l; simpl; auto. Qed.

Lemma saved_histories_app a b :
  saved_histories (a ++ b) = saved_histories a ++ saved_histories b.
Proof.
  induction a as [|e a IH]; simpl; [reflexivity|].
  destruct e; simpl; now rewrite ?IH.
Qed.

Lemma selection_events_quiet evs :
  selection_events evs ->
  filter is_cadence evs = [] /\ filter is_train evs = [] /\
  filter is_env_setup evs = [] /\ saved_histories evs = [].
Proof. intros [-> | [b [-> | ->]]]; simpl; auto. Qed.

Lemma prefixes_snoc {A : Type} (l : list A) (x : A) :
  prefixes (l ++ [x]) = prefixes l ++ [l ++ [x]].
Proof.
  unfold prefixes. rewrite length_app. cbn [List.length].
  rewrite Nat.add_1_r, seq_S, map_app. cbn [map]. f_equal.
  - apply map_ext_in. intros k Hk. apply in_seq in Hk.
    rewrite firstn_app. replace (k - List.length l)%nat with 0%nat by lia.
    simpl. now rewrite app_nil_r.
  - f_equal. rewrite <- (firstn_all (l ++ [x])) at 2.
    f_equal. rewrite length_app. cbn [List.length]. lia.
Qed.

Lemma ceil_div_spec a b :
  0 < b -> b * (ceil_div a b - 1) < a <= b * ceil_div a b.
Proof.
  intros Hb. unfold ceil_div.
  pose proof (Z.mul_div_le (- a) b Hb).
  pose proof (Z.mul_succ_div_gt (- a) b Hb). lia.
Qed.

(** ** The loop *)

Section Loop.
Context `{Collaborators}.

(** A property of the state kept by every way a pass can end holds wherever the
    loop stops, whatever the fuel. *)
Lemma train_loop_invariant (P : LoopState -> Prop) agent args :
  (forall s, P s ->
     match cycle agent args s with inl s' => P s' | inr (_, s') => P s' end) ->
  forall fuel s, P s -> P (final_state (train_loop fuel agent args s)).
Proof.
  intros Hstep. induction fuel as [|fuel IH]; intros s Hs; simpl.
  - destruct (training_iters s <? max_timesteps args); exact Hs.
  - destruct (training_iters s <? max_timesteps args); [|exact Hs].
    specialize (Hstep s Hs). destruct (cycle agent args s) as [s' | [e s']].
    + now apply IH.
    + exact Hstep.
Qed.

Lemma train_loop_O agent args s :
  train_loop 0 agent args s =
    if training_iters s <? max_timesteps args then OutOfFuel s else Done s.
Proof. reflexivity. Qed.

Lemma train_loop_S fuel agent args s :
  train_loop (S fuel) agent args s =
    if training_iters s <? max_timesteps args then
      match cycle agent args s with
      | inl s' => train_loop fuel agent args s'
      | inr (e, s') => Raised e s'
      end
    else Done s.
Proof. reflexivity. Qed.

(** With positive [num_steps_per_epoch] and [eval_freq], a loop that has made
    [i] passes and is [k] passes short of the budget makes exactly [k] more. *)
Lemma loop_runs cls args :
  0 < num_steps_per_epoch args -> 0 < eval_freq args ->
  forall (k i : nat) s,
    training_iters s = Z.of_nat i * (eval_freq args * num_steps_per_epoch args) ->
    num_epochs args <= Z.of_nat (i + k) * eval_freq args ->
    (k <> 0%nat -> (Z.of_nat (i + k) - 1) * eval_freq args < num_epochs args) ->
    exists s',
      (forall fuel, (k <= fuel)%nat -> train_loop fuel (Some cls) args s = Done s') /\
      training_iters s' = Z.of_nat (i + k) * (eval_freq args * num_steps_per_epoch args) /\
      filter is_cadence (trace s') =
        filter is_cadence (trace s) ++ flat_map (cadence_of cls args) (seq (S i) k) /\
      passes (trace s') = (passes (trace s) + k)%nat.
Proof.
  intros Hst Hf. induction k as [|k IH]; intros i s Hti Hhi Hlo.
  - exists s. rewrite Nat.add_0_r in *. simpl. rewrite app_nil_r, Nat.add_0_r.
    repeat split; auto.
    intros fuel _.
    assert (Hc : (training_iters s <? max_timesteps args) = false).
    { apply Z.ltb_ge. unfold max_timesteps. rewrite Hti. nia. }
    destruct fuel; [rewrite train_loop_O | rewrite train_loop_S]; now rewrite Hc.
  - assert (Hc : (training_iters s <? max_timesteps args) = true).
    { apply Z.ltb_lt. unfold max_timesteps. rewrite Hti.
      specialize (Hlo ltac:(discriminate)). nia. }
    pose proof (cycle_cases (Some cls) args s) as Hcyc. cbv zeta in Hcyc.
    destruct (cycle (Some cls) args s) as [s1 | [e s1]] eqn:Ecyc.
    + destruct Hcyc as (cls' & r & scores & evs & Hcls & _ & _ & Hti1 & _ & _ & Hsel & Htr & _).
      injection Hcls as <-.
      assert (Hep : (training_iters s + eval_freq args * num_steps_per_epoch args)
                      / num_steps_per_epoch args = Z.of_nat (S i) * eval_freq args).
      { rewrite Hti.
        replace (Z.of_nat i * (eval_freq args * num_steps_per_epoch args)
                 + eval_freq args * num_steps_per_epoch args)
          with (Z.of_nat (S i) * eval_freq args * num_steps_per_epoch args) by lia.
        apply Z.div_mul. lia. }
      rewrite Hep in Htr.
      destruct (selection_events_quiet evs) as (Hq1 & Hq2 & _ & _);
        [subst evs; apply selection_trace_events|].
      destruct (IH (S i) s1) as (s' & Hrun & Hti' & Hcad & Hpass).
      * rewrite Hti1, Hti. lia.
      * replace (S i + k)%nat with (i + S k)%nat by lia. exact Hhi.
      * intros _. replace (S i + k)%nat with (i + S k)%nat by lia.
        apply Hlo. discriminate.
      * exists s'. replace (i + S k)%nat with (S i + k)%nat by lia.
        repeat split; auto.
        -- intros [|fuel] Hle; [lia|]. rewrite train_loop_S, Hc, Ecyc. apply Hrun. lia.
        -- rewrite Hcad, Htr. rewrite !filter_app, filter_cadence_episodes.
           simpl. rewrite Hq1. simpl. now rewrite <- app_assoc.
        -- rewrite Hpass, Htr. unfold passes.
           rewrite !filter_app, filter_train_episodes. simpl. rewrite Hq2.
           rewrite !length_app. simpl. lia.
    + destruct Hcyc as (_ & _ & _ & [(Hn & _) | (c & _ & Hz & _)]);
        [discriminate | lia].
Qed.

(** With a zero burst the loop makes no progress. *)
Lemma loop_stuck cls args :
  eval_freq args * num_steps_per_epoch args = 0 ->
  0 < num_epochs args * num_steps_per_epoch args ->
  forall fuel s, training_iters s = 0 ->
    exists s', train_loop fuel (Some cls) args s = OutOfFuel s' /\
               passes (trace s') = (passes (trace s) + fuel)%nat.
Proof.
  intros Hz Hpos. induction fuel as [|fuel IH]; intros s Hti;
    assert (Hc : (training_iters s <? max_timesteps args) = true)
      by (apply Z.ltb_lt; unfold max_timesteps; lia);
    [rewrite train_loop_O | rewrite train_loop_S]; rewrite Hc.
  - exists s. split; [reflexivity | lia].
  - pose proof (cycle_cases (Some cls) args s) as Hcyc. cbv zeta in Hcyc.
    destruct (cycle (Some cls) args s) as [s1 | [e s1]].
    + destruct Hcyc as (cls' & r & scores & evs & _ & _ & _ & Hti1 & _ & _ & Hsel & Htr & _).
      destruct (selection_events_quiet evs) as (_ & Hq2 & _ & _);
        [subst evs; apply selection_trace_events|].
      destruct (IH s1) as (s' & Hrun & Hpass); [lia|].
      exists s'. split; [exact Hrun|].
      rewrite Hpass, Htr. unfold passes.
      rewrite !filter_app, filter_train_episodes. simpl. rewrite Hq2.
      rewrite !length_app. simpl. lia.
    + destruct Hcyc as (_ & _ & _ & [(Hn & _) | (c & _ & Hz0 & _)]);
        [discriminate | rewrite Hz0 in Hpos; lia].
Qed.

End Loop.

(** ** The loop against its reference *)

Section History.
Context `{Collaborators}.

(** As [train_loop_invariant], for a property that needs the loop condition
    to survive a pass. *)
Lemma train_loop_invariant_guarded (P : LoopState -> Prop) agent args :
  (forall s, P s -> training_iters s < max_timesteps args ->
     match cycle agent args s with inl s' => P s' | inr (_, s') => P s' end) ->
  forall fuel s, P s -> P (final_state (train_loop fuel agent args s)).
Proof.
  intros Hstep. induction fuel as [|fuel IH]; intros s Hs.
  - rewrite train_loop_O. destruct (training_iters s <? max_timesteps args); exact Hs.
  - rewrite train_loop_S.
    destruct (training_iters s <? max_timesteps args) eqn:Hc; [|exact Hs].
    apply Z.ltb_lt in Hc. specialize (Hstep s Hs Hc).
    destruct (cycle agent args s) as [s' | [e s']].
    + now apply IH.
    + exact Hstep.
Qed.

Lemma passes_after_cycle cls args s s' scores evs curr_epoch r :
  selection_events evs ->
  trace s' =
    trace s
    ++ [EvBanner (training_iters s);
        EvTrain cls (eval_freq args * num_steps_per_epoch args) (batch_size args);
        EvTrainedEpochs curr_epoch;
        EvMakeEnv (env_name args);
        EvSeedEnv (seed args + 100)]
    ++ map EvEpisode scores
    ++ EvSaveEval (evaluations s ++ [r]) :: evs ->
  passes (trace s') = S (passes (trace s)).
Proof.
  intros Hsel ->. destruct (selection_events_quiet evs Hsel) as (_ & Hq & _ & _).
  unfold passes. rewrite !filter_app, filter_train_episodes. simpl. rewrite Hq.
  rewrite !length_app. simpl. lia.
Qed.

Lemma counters_invariant fuel args w :
  let st := final_state (train_agent fuel args w) in
  training_iters st = Z.of_nat (passes (trace st)) * burst args /\
  List.length (evaluations st) = passes (trace st).
Proof.
  unfold train_agent.
  apply (train_loop_invariant_guarded
           (fun s => training_iters s = Z.of_nat (passes (trace s)) * burst args /\
                     List.length (evaluations s) = passes (trace s)));
    [|split; reflexivity].
  intros s [Hti Hlen] Hguard.
  pose proof (cycle_cases (select_agent (algo args)) args s) as Hc.
  cbv zeta in Hc. destruct (cycle _ args s) as [s' | [e s']].
  - destruct Hc as (cls & r & scores & evs & _ & _ & Hev & Hti' & _ & _ & Hevs & Htr & _).
    rewrite (passes_after_cycle cls args s s' scores evs _ r
               ltac:(subst evs; apply selection_trace_events) Htr).
    rewrite Hti', Hev, length_app, Hti, Hlen, Nat2Z.inj_succ. unfold burst.
    split; [lia | simpl; lia].
  - destruct Hc as (Hev & _ & _ & [(_ & _ & Hti' & Htr) | (c & _ & Hz & _ & Htr)]).
    + rewrite Hti', Hev, Htr. unfold passes in *. rewrite filter_app. simpl.
      rewrite app_nil_r. auto.
    + exfalso. unfold max_timesteps, burst in *. rewrite Hz in *. lia.
Qed.

Lemma cycle_world agent args s :
  match cycle agent args s with
  | inl s' =>
      world s' =
        snd (fst (eval_policy
                    (agent_train (eval_freq args * num_steps_per_epoch args)
                                 (batch_size args) (world s))
                    (env_name args) (seed args) (eval_episodes args)))
  | inr (e, s') => e = UnboundLocalError -> world s' = world s
  end.
Proof.
  unfold cycle. destruct agent as [cls|]; [|reflexivity].
  destruct (num_steps_per_epoch args =? 0); [discriminate|].
  destruct (eval_policy _ _ _ _) as [[r w2] evs].
  unfold consider. simpl.
  destruct (float_ge (eval_norm_res r) (best_score s)); reflexivity.
Qed.

Lemma after_cycles_length args k w : List.length (fst (after_cycles args k w)) = k.
Proof.
  induction k as [|k IH]; [reflexivity|].
  simpl. rewrite length_app, IH. simpl. lia.
Qed.

(** At every point a run can reach, the history and the world are what the
    passes made so far should have left. *)
Lemma run_history fuel args w :
  let st := final_state (train_agent fuel args w) in
  evaluations st = fst (after_cycles args (passes (trace st)) (start_world args w)) /\
  world st = snd (after_cycles args (passes (trace st)) (start_world args w)).
Proof.
  unfold train_agent.
  cut (let st := final_state
                   (train_loop fuel (select_agent (algo args)) args
                      (initial_state (start_world args w))) in
       training_iters st = Z.of_nat (passes (trace st)) * burst args /\
       evaluations st = fst (after_cycles args (passes (trace st)) (start_world args w)) /\
       world st = snd (after_cycles args (passes (trace st)) (start_world args w))).
  { unfold start_world. cbv zeta. intros (_ & He & Hw). split; assumption. }
  apply (train_loop_invariant_guarded
           (fun s =>
              training_iters s = Z.of_nat (passes (trace s)) * burst args /\
              evaluations s =
                fst (after_cycles args (passes (trace s)) (start_world args w)) /\
              world s =
                snd (after_cycles args (passes (trace s)) (start_world args w))));
    [|repeat split].
  intros s (Hti & Hev & Hw) Hguard.
  pose proof (cycle_cases (select_agent (algo args)) args s) as Hc.
  pose proof (cycle_world (select_agent (algo args)) args s) as Hcw.
  cbv zeta in Hc. destruct (cycle _ args s) as [s' | [e s']].
  - destruct Hc as (cls & r & scores & evs & _ & _ & Hev' & Hti' & _ & _ & Hevs & Htr & Hr).
    rewrite (passes_after_cycle cls args s s' scores evs _ r
               ltac:(subst evs; apply selection_trace_events) Htr).
    cbn [after_cycles fst snd]. rewrite <- Hw, <- Hev, Hev', Hcw, Hr, Hti', Hti.
    rewrite Nat2Z.inj_succ. unfold burst. repeat split. lia.
  - destruct Hc as (Hev' & _ & _ & [(_ & -> & Hti' & Htr) | (c & _ & Hz & _ & Htr)]).
    + assert (Hp : passes (trace s') = passes (trace s)).
      { rewrite Htr. unfold passes. rewrite filter_app. simpl. now rewrite app_nil_r. }
      rewrite Hp, Hti', Hev', (Hcw eq_refl). repeat split; assumption.
    + exfalso. unfold max_timesteps, burst in *. rewrite Hz in *. lia.
Qed.

End History.

(** ** The best-model selection policy (lines 125-133) *)

Section SelectionPolicy.
Context `{Collaborators}.

(** C2. The selection step updates if and only if the new normalized average
    is greater than or equal to the running best. When [float_ge] holds it
    overwrites [best_score.txt] with the new record, takes the new average as
    running best, and saves the checkpoint exactly when [save_best_model] is
    set; when it does not hold the state is left as it was. A normalized
    average that compares equal to the running best satisfies [float_ge], so a
    tie is a full update. *)
Theorem selection_rule (save : bool) (s : LoopState) (r : EvaluationRecord) (e : Z) :
  (float_ge (eval_norm_res r) (best_score s) = true ->
     best_score_file (consider save s r e) = Some (best_res_of e r) /\
     best_score (consider save s r e) = eval_norm_res r /\
     saved_model (consider save s r e) = (if save then Some (world s) else saved_model s) /\
     trace (consider save s r e) =
       trace s ++ (if save then [EvSaveModel] else []) ++ [EvWriteBest (best_res_of e r)]) /\
  (float_ge (eval_norm_res r) (best_score s) = false -> consider save s r e = s) /\
  (PrimFloat.eqb (eval_norm_res r) (best_score s) = true ->
     float_ge (eval_norm_res r) (best_score s) = true).
Proof.
  unfold consider. split; [|split].
  - intros Hge. rewrite Hge. repeat split; reflexivity.
  - intros Hge. rewrite Hge. reflexivity.
  - intros Heq. unfold float_ge. now apply PyFloat.eqb_leb.
Qed.

(** C1, as amended. Feed any sequence of evaluations, each with its epoch,
    through the selection step from the initial state. If at least one of the
    normalized averages is greater than or equal to -100, the initial running
    best, then [best_score.txt] holds the record written for one evaluation [x]
    of the sequence; the normalized average of [x] is greater than or equal to
    every normalized average of the sequence that is not NaN, and no
    evaluation after [x] reaches it, so [x] is the most recent one that
    attains the maximum and the epoch on file is its epoch. *)
Theorem best_is_latest_maximum (save : bool) (w : World) (l : list (EvaluationRecord * Z)) :
  Exists (fun re => float_ge (score re) (-100)%float = true) l ->
  exists l1 x l2,
    l = l1 ++ x :: l2 /\
    best_score_file (consider_all save (initial_state w) l) = Some (written x) /\
    best_score (consider_all save (initial_state w) l) = score x /\
    Forall (fun y => float_ge (score x) (score y) = true \/ is_nan (score y) = true) l /\
    Forall (fun y => float_ge (score y) (score x) = false) l2.
Proof.
  intros Hex.
  pose proof (Selection.sel_consider_all save l (initial_state w)) as Hsel.
  destruct (Selection.select_split l (-100)%float None eq_refl)
    as [[Hall _] | (l1 & x & l2 & Hl & Heq & Hx & H1 & H2)].
  - exfalso. apply Exists_exists in Hex. destruct Hex as (re & Hin & Hre).
    rewrite Forall_forall in Hall. specialize (Hall re Hin). congruence.
  - exists l1, x, l2. unfold sel in Hsel. simpl in Hsel. rewrite Heq in Hsel.
    injection Hsel as Hb Hf.
    assert (Hxx : PrimFloat.leb (score x) (score x) = true)
      by (eapply PyFloat.leb_refl_r; exact Hx).
    repeat split; auto.
    subst l. apply Forall_app. split; [exact H1|]. constructor; [now left|].
    eapply Forall_impl; [|exact H2]. intros y Hy; simpl in Hy.
    unfold float_ge, is_nan in *.
    destruct (PrimFloat.leb (score y) (score y)) eqn:Hyy; [left | now right].
    apply PyFloat.leb_total; auto.
Qed.

(** C5. Replay is idempotent: from the initial state, feeding a sequence of
    evaluations (with their epochs) twice in a row leaves the same
    [best_score.txt] and the same running best as feeding it once. *)
Theorem replay_idempotent (save : bool) (w : World) (l : list (EvaluationRecord * Z)) :
  best_score_file (consider_all save (initial_state w) (l ++ l)) =
    best_score_file (consider_all save (initial_state w) l) /\
  best_score (consider_all save (initial_state w) (l ++ l)) =
    best_score (consider_all save (initial_state w) l).
Proof.
  assert (Hgoal : sel (consider_all save (initial_state w) (l ++ l)) =
                  sel (consider_all save (initial_state w) l)).
  { rewrite !Selection.sel_consider_all, fold_left_app.
    change (sel (initial_state w)) with ((-100)%float, @None BestScoreRecord).
    destruct (Selection.select_split l (-100)%float None eq_refl)
      as [[Hall Heq] | (l1 & x & l2 & Hl & Heq & Hx & H1 & H2)]; rewrite Heq.
    - exact Heq.
    - assert (Hxx : PrimFloat.leb (score x) (score x) = true)
        by (eapply PyFloat.leb_refl_r; exact Hx).
      rewrite Hl at 1. rewrite fold_left_app. simpl.
      assert (Hup : exists b p,
                 fold_left select l1 (score x, Some (written x)) = (b, p) /\
                 float_ge (score x) b = true).
      { destruct (Selection.select_split l1 (score x) (Some (written x)) Hxx)
          as [[_ Heq1] | (l3 & y & l4 & Hl1 & Heq1 & Hy & _ & _)]; rewrite Heq1.
        - eexists _, _. split; [reflexivity | exact Hxx].
        - eexists _, _. split; [reflexivity|].
          rewrite Forall_forall in H1. destruct (H1 y) as [Hle | Hnan]; auto.
          + subst l1. apply in_elt.
          + unfold is_nan, float_ge in *.
            rewrite (PyFloat.leb_refl_r _ _ Hy) in Hnan. discriminate. }
      destruct Hup as (b & p & -> & Hge).
      unfold select at 2. simpl. rewrite Hge.
      apply Selection.select_stable. exact H2. }
  unfold sel in Hgoal. injection Hgoal as Hb Hf. auto.
Qed.

End SelectionPolicy.

(** ** Properties of whole runs *)

Section Runs.
Context `{Collaborators}.

(** The running best never drops below its initial value. *)
Lemma best_score_floor fuel args w :
  PrimFloat.leb (-100)%float (best_score (final_state (train_agent fuel args w))) = true.
Proof.
  unfold train_agent.
  apply (train_loop_invariant
           (fun s => PrimFloat.leb (-100)%float (best_score s) = true));
    [|reflexivity].
  intros s Hs. pose proof (cycle_cases (select_agent (algo args)) args s) as Hc.
  cbv zeta in Hc. destruct (cycle _ args s) as [s' | [e s']].
  - destruct Hc as (_ & r & _ & _ & _ & _ & _ & _ & _ & Hsel & _).
    unfold sel, select, score in Hsel. simpl in Hsel.
    destruct (float_ge (eval_norm_res r) (best_score s)) eqn:Hge;
      injection Hsel as -> _; [|exact Hs].
    eapply PyFloat.leb_trans; [exact Hs | exact Hge].
  - destruct Hc as (_ & Hsel & _). unfold sel in Hsel. injection Hsel as -> _. exact Hs.
Qed.

(** As long as every evaluation stayed below -100, nothing was selected. *)
Lemma below_floor_invariant fuel args w :
  let st := final_state (train_agent fuel args w) in
  Forall (fun r => PrimFloat.ltb (eval_norm_res r) (-100)%float = true) (evaluations st) ->
  best_score st = (-100)%float /\ best_score_file st = None /\
  filter is_write_best (trace st) = [].
Proof.
  unfold train_agent.
  apply (train_loop_invariant
           (fun s =>
              Forall (fun r => PrimFloat.ltb (eval_norm_res r) (-100)%float = true)
                     (evaluations s) ->
              best_score s = (-100)%float /\ best_score_file s = None /\
              filter is_write_best (trace s) = []));
    [|now simpl].
  intros s Hs. pose proof (cycle_cases (select_agent (algo args)) args s) as Hc.
  cbv zeta in Hc. destruct (cycle _ args s) as [s' | [e s']].
  - destruct Hc as (cls & r & scores & evs & _ & _ & Hev & _ & _ & Hsel & Hevs & Htr & _).
    rewrite Hev. intros Hall. apply Forall_app in Hall. destruct Hall as [Hall Hr].
    inversion Hr as [|? ? Hlt _]; subst.
    destruct (Hs Hall) as (Hb & Hf & Hw).
    apply PyFloat.ltb_not_leb in Hlt.
    unfold sel, select, score, selection_trace, float_ge in *. simpl in Hsel.
    rewrite Hb, Hlt in *. injection Hsel as -> ->.
    repeat split; auto.
    rewrite Htr, !filter_app, Hw, filter_write_best_episodes. reflexivity.
  - destruct Hc as (Hev & Hsel & _ & Htr). rewrite Hev. intros Hall.
    destruct (Hs Hall) as (Hb & Hf & Hw).
    unfold sel in Hsel. injection Hsel as -> ->.
    repeat split; auto.
    destruct Htr as [(_ & _ & _ & ->) | (c & _ & _ & _ & ->)];
      rewrite filter_app, Hw; reflexivity.
Qed.

(** C9. The running best starts at -100. At every point a run can reach, an
    evaluation whose normalized average is strictly below -100 does not
    trigger an update: the selection step leaves the state as it is. In a run
    all of whose evaluations have a normalized average strictly below -100,
    [best_score.txt] is never written. *)
Theorem sentinel_minus_100 :
  (forall w, best_score (initial_state w) = (-100)%float) /\
  (forall fuel args w save r e,
     PrimFloat.ltb (eval_norm_res r) (-100)%float = true ->
     consider save (final_state (train_agent fuel args w)) r e =
       final_state (train_agent fuel args w)) /\
  (forall fuel args w,
     Forall (fun r => PrimFloat.ltb (eval_norm_res r) (-100)%float = true)
            (evaluations (final_state (train_agent fuel args w))) ->
     best_score_file (final_state (train_agent fuel args w)) = None /\
     filter is_write_best (trace (final_state (train_agent fuel args w))) = []).
Proof.
  split; [reflexivity | split].
  - intros fuel args w save r e Hlt.
    pose proof (best_score_floor fuel args w) as Hfloor.
    apply PyFloat.ltb_not_leb in Hlt. unfold consider, float_ge.
    destruct (PrimFloat.leb (best_score _) (eval_norm_res r)) eqn:Hge; [|reflexivity].
    rewrite (PyFloat.leb_trans _ _ _ Hfloor Hge) in Hlt. discriminate.
  - intros fuel args w Hall. now apply below_floor_invariant.
Qed.

End Runs.

(** ** What a run leaves on disk and in the environment *)

Section Persistence.
Context `{Collaborators}.

Lemma env_setup_invariant fuel args w :
  filter is_env_setup (trace (final_state (train_agent fuel args w))) =
    List.concat (repeat [EvMakeEnv (env_name args); EvSeedEnv (seed args + 100)]
                   (List.length (evaluations (final_state (train_agent fuel args w))))).
Proof.
  unfold train_agent.
  apply (train_loop_invariant
           (fun s => filter is_env_setup (trace s) =
                     List.concat (repeat [EvMakeEnv (env_name args); EvSeedEnv (seed args + 100)]
                                    (List.length (evaluations s)))));
    [|reflexivity].
  intros s Hs. pose proof (cycle_cases (select_agent (algo args)) args s) as Hc.
  cbv zeta in Hc. destruct (cycle _ args s) as [s' | [e s']].
  - destruct Hc as (cls & r & scores & evs & _ & _ & Hev & _ & _ & _ & Hevs & Htr & _).
    destruct (selection_events_quiet evs) as (_ & _ & Hq & _);
      [subst evs; apply selection_trace_events|].
    rewrite Htr, Hev, length_app, repeat_app, concat_app.
    rewrite !filter_app, filter_env_setup_episodes, Hs. simpl. now rewrite Hq.
  - destruct Hc as (Hev & _ & _ & Htr). rewrite Hev.
    destruct Htr as [(_ & _ & _ & ->) | (c & _ & _ & _ & ->)];
      rewrite filter_app, Hs; simpl; now rewrite app_nil_r.
Qed.

(** C7. Every call of [eval_policy] makes exactly one environment and seeds it
    once, with [seed + 100]: its events are the [gym.make], the seeding and
    then the episodes. In a run, every evaluation cycle does this with the
    training seed [args.seed]: the environment set-up events of the trace are
    one [gym.make(args.env_name)] followed by one seeding with
    [args.seed + 100] per evaluation made. *)
Theorem eval_env_seeding :
  (forall w name sd n,
     snd (eval_policy w name sd n) =
       EvMakeEnv name :: EvSeedEnv (sd + 100)
         :: map EvEpisode (episode_scores w name sd n) /\
     filter is_env_setup (snd (eval_policy w name sd n)) =
       [EvMakeEnv name; EvSeedEnv (sd + 100)]) /\
  (forall fuel args w,
     filter is_env_setup (trace (final_state (train_agent fuel args w))) =
       List.concat (repeat [EvMakeEnv (env_name args); EvSeedEnv (seed args + 100)]
                      (List.length (evaluations (final_state (train_agent fuel args w)))))).
Proof.
  split.
  - intros w name sd n. destruct (eval_policy_spec w name sd n) as (_ & Hev & _).
    rewrite Hev. split; [reflexivity|].
    simpl. now rewrite filter_env_setup_episodes.
  - apply env_setup_invariant.
Qed.

Lemma history_invariant fuel args w :
  let st := final_state (train_agent fuel args w) in
  saved_histories (trace st) = prefixes (evaluations st) /\
  eval_file st = match evaluations st with [] => None | _ => Some (evaluations st) end.
Proof.
  unfold train_agent.
  apply (train_loop_invariant
           (fun s => saved_histories (trace s) = prefixes (evaluations s) /\
                     eval_file s =
                       match evaluations s with [] => None | _ => Some (evaluations s) end));
    [|split; reflexivity].
  intros s [Hh Hf]. pose proof (cycle_cases (select_agent (algo args)) args s) as Hc.
  cbv zeta in Hc. destruct (cycle _ args s) as [s' | [e s']].
  - destruct Hc as (cls & r & scores & evs & _ & _ & Hev & _ & Hfile & _ & Hevs & Htr & _).
    destruct (selection_events_quiet evs) as (_ & _ & _ & Hq);
      [subst evs; apply selection_trace_events|].
    split.
    + rewrite Htr, Hev, prefixes_snoc, !saved_histories_app, Hh.
      rewrite saved_histories_episodes. simpl. now rewrite Hq.
    + rewrite Hfile, Hev. destruct (evaluations s); reflexivity.
  - destruct Hc as (Hev & _ & Hfile & Htr). rewrite Hev, Hfile. split; [|exact Hf].
    destruct Htr as [(_ & _ & _ & ->) | (c & _ & _ & _ & ->)];
      rewrite saved_histories_app, Hh; simpl; now rewrite app_nil_r.
Qed.

Lemma evaluations_grow agent args fuel : forall s,
  exists new, evaluations (final_state (train_loop fuel agent args s)) = evaluations s ++ new.
Proof.
  induction fuel as [|fuel IH]; intros s.
  - rewrite train_loop_O. exists [].
    destruct (training_iters s <? max_timesteps args); simpl; now rewrite app_nil_r.
  - rewrite train_loop_S.
    destruct (training_iters s <? max_timesteps args);
      [|exists []; simpl; now rewrite app_nil_r].
    pose proof (cycle_cases agent args s) as Hc. cbv zeta in Hc.
    destruct (cycle agent args s) as [s' | [e s']].
    + destruct Hc as (_ & r & _ & _ & _ & _ & Hev & _).
      destruct (IH s') as (new & Hnew). exists (r :: new).
      rewrite Hnew, Hev, <- app_assoc. reflexivity.
    + destruct Hc as (Hev & _). exists []. simpl. now rewrite app_nil_r.
Qed.

End Persistence.

(** ** Cadence and termination of the loop (lines 103-123) *)

Lemma select_agent_None name :
  select_agent name = None <-> ~ In name recognized_algos.
Proof.
  unfold select_agent, recognized_algos. split.
  - intros Hn Hin. simpl in Hin.
    repeat (destruct Hin as [<- | Hin]; [discriminate Hn|]). exact Hin.
  - intros Hn.
    repeat match goal with
           | |- context [String.eqb name ?c] =>
               destruct (String.eqb_spec name c) as [-> | _];
               [exfalso; apply Hn; simpl; tauto|]
           end.
    reflexivity.
Qed.

Section Cadence.
Context `{Collaborators}.

(** A run with a bound agent and positive [num_steps_per_epoch] and
    [eval_freq] returns after [ceil(num_epochs / eval_freq)] passes, none if
    that is not positive. *)
Lemma run_terminates args cls w :
  select_agent (algo args) = Some cls ->
  0 < num_steps_per_epoch args -> 0 < eval_freq args ->
  exists st,
    (forall fuel,
       (Z.to_nat (ceil_div (num_epochs args) (eval_freq args)) <= fuel)%nat ->
       train_agent fuel args w = Done st) /\
    training_iters st =
      Z.of_nat (Z.to_nat (ceil_div (num_epochs args) (eval_freq args)))
      * (eval_freq args * num_steps_per_epoch args) /\
    filter is_cadence (trace st) =
      flat_map (cadence_of cls args)
               (seq 1 (Z.to_nat (ceil_div (num_epochs args) (eval_freq args)))) /\
    passes (trace st) = Z.to_nat (ceil_div (num_epochs args) (eval_freq args)).
Proof.
  intros Hsel Hst Hf. unfold train_agent. rewrite Hsel.
  pose proof (ceil_div_spec (num_epochs args) (eval_freq args) Hf) as Hceil.
  destruct (loop_runs cls args Hst Hf
              (Z.to_nat (ceil_div (num_epochs args) (eval_freq args))) 0
              (initial_state (construct cls args (load_buffer args w))))
    as (st & Hrun & Hti & Hcad & Hpass).
  - reflexivity.
  - simpl. nia.
  - simpl. intros Hk. nia.
  - exists st. repeat split; auto.
Qed.

(** C4, as amended. With a recognized algorithm variant and positive
    [num_epochs], [num_steps_per_epoch] and [eval_freq], the run returns after
    exactly [ceil(num_epochs / eval_freq)] training bursts, each of
    [eval_freq * num_steps_per_epoch] iterations and each followed by one
    evaluation; the epoch logged at cycle [k] is [k * eval_freq]. The total
    number of training iterations is at least the budget
    [num_epochs * num_steps_per_epoch] and exceeds it by at most
    [(eval_freq - 1) * num_steps_per_epoch], strictly exceeding it when
    [eval_freq] does not divide [num_epochs]. For 500 epochs of 1000 steps
    evaluated every 50 epochs this is 10 cycles of 50000 iterations. The
    bursts and evaluations are really made: the history and the world at the
    end are those that many passes leave, each pass training the world for one
    burst and evaluating the result, and the whole history is on file. *)
Theorem cycle_cadence (args : Args) (cls : AgentClass) (w : World) :
  select_agent (algo args) = Some cls ->
  0 < num_epochs args -> 0 < num_steps_per_epoch args -> 0 < eval_freq args ->
  exists st,
    (forall fuel,
       (Z.to_nat (ceil_div (num_epochs args) (eval_freq args)) <= fuel)%nat ->
       train_agent fuel args w = Done st) /\
    passes (trace st) = Z.to_nat (ceil_div (num_epochs args) (eval_freq args)) /\
    filter is_cadence (trace st) =
      flat_map (cadence_of cls args)
               (seq 1 (Z.to_nat (ceil_div (num_epochs args) (eval_freq args)))) /\
    training_iters st =
      ceil_div (num_epochs args) (eval_freq args)
      * (eval_freq args * num_steps_per_epoch args) /\
    num_epochs args * num_steps_per_epoch args <= training_iters st
      <= num_epochs args * num_steps_per_epoch args
         + (eval_freq args - 1) * num_steps_per_epoch args /\
    (num_epochs args mod eval_freq args <> 0 ->
       num_epochs args * num_steps_per_epoch args < training_iters st) /\
    (num_epochs args = 500 -> num_steps_per_epoch args = 1000 -> eval_freq args = 50 ->
       Z.to_nat (ceil_div (num_epochs args) (eval_freq args)) = 10%nat /\
       eval_freq args * num_steps_per_epoch args = 50000) /\
    evaluations st =
      fst (after_cycles args (Z.to_nat (ceil_div (num_epochs args) (eval_freq args)))
                        (start_world args w)) /\
    world st =
      snd (after_cycles args (Z.to_nat (ceil_div (num_epochs args) (eval_freq args)))
                        (start_world args w)) /\
    List.length (evaluations st) =
      Z.to_nat (ceil_div (num_epochs args) (eval_freq args)) /\
    eval_file st = Some (evaluations st) /\
    saved_histories (trace st) = prefixes (evaluations st).
Proof.
  intros Hsel Hn Hst Hf.
  destruct (run_terminates args cls w Hsel Hst Hf) as (st & Hrun & Hti & Hcad & Hpass).
  pose proof (ceil_div_spec (num_epochs args) (eval_freq args) Hf) as Hceil.
  assert (Hc : Z.of_nat (Z.to_nat (ceil_div (num_epochs args) (eval_freq args))) =
               ceil_div (num_epochs args) (eval_freq args)) by nia.
  rewrite Hc in Hti.
  exists st.
  split; [exact Hrun | split; [exact Hpass | split; [exact Hcad | split; [exact Hti|]]]].
  split; [rewrite Hti; nia | split; [|split]].
  - intros Hmod. rewrite Hti.
    assert (eval_freq args * ceil_div (num_epochs args) (eval_freq args)
            <> num_epochs args).
    { intros Heq. apply Hmod. rewrite <- Heq, Z.mul_comm. apply Z.mod_mul. lia. }
    nia.
  - intros E1 E2 E3. rewrite E1, E2, E3. split; reflexivity.
  - assert (Hfin : final_state
                     (train_agent (Z.to_nat (ceil_div (num_epochs args) (eval_freq args)))
                                  args w) = st)
      by (rewrite (Hrun _ (le_n _)); reflexivity).
    pose proof (run_history (Z.to_nat (ceil_div (num_epochs args) (eval_freq args)))
                            args w) as Hh.
    pose proof (history_invariant
                  (Z.to_nat (ceil_div (num_epochs args) (eval_freq args))) args w) as Hi.
    cbv zeta in Hh, Hi. rewrite Hfin in Hh, Hi. rewrite Hpass in Hh.
    destruct Hh as [Hev Hw]. destruct Hi as [Hsaved Hfile].
    assert (Hlen : List.length (evaluations st) =
                   Z.to_nat (ceil_div (num_epochs args) (eval_freq args)))
      by (rewrite Hev; apply after_cycles_length).
    split; [exact Hev | split; [exact Hw | split; [exact Hlen | split; [|exact Hsaved]]]].
    rewrite Hfile. destruct (evaluations st); [simpl in Hlen; lia | reflexivity].
Qed.

(** C10, as amended. With a recognized algorithm variant,
    [num_steps_per_epoch >= 1] and [eval_freq >= 1], the loop terminates:
    given enough fuel the run returns, after exactly
    [ceil(num_epochs / eval_freq)] passes through the body, and after none
    when [num_epochs <= 0]. If instead [eval_freq * num_steps_per_epoch = 0]
    while [num_epochs * num_steps_per_epoch > 0], the loop never terminates:
    whatever the fuel, the run is still looping when it is spent, having made
    that many passes. Every pass counted has appended its evaluation. *)
Theorem loop_termination (args : Args) (cls : AgentClass) (w : World) :
  select_agent (algo args) = Some cls ->
  (1 <= num_steps_per_epoch args -> 1 <= eval_freq args ->
   exists st,
     (forall fuel,
        (Z.to_nat (ceil_div (num_epochs args) (eval_freq args)) <= fuel)%nat ->
        train_agent fuel args w = Done st) /\
     passes (trace st) = Z.to_nat (ceil_div (num_epochs args) (eval_freq args)) /\
     (num_epochs args <= 0 -> passes (trace st) = 0%nat) /\
     List.length (evaluations st) =
       Z.to_nat (ceil_div (num_epochs args) (eval_freq args))) /\
  (eval_freq args * num_steps_per_epoch args = 0 ->
   0 < num_epochs args * num_steps_per_epoch args ->
   forall fuel,
     exists st, train_agent fuel args w = OutOfFuel st /\ passes (trace st) = fuel /\
                List.length (evaluations st) = fuel).
Proof.
  intros Hsel. split.
  - intros Hst Hf.
    destruct (run_terminates args cls w Hsel) as (st & Hrun & _ & _ & Hpass); [lia..|].
    exists st.
    split; [exact Hrun | split; [exact Hpass | split]].
    + intros Hn. rewrite Hpass.
      pose proof (ceil_div_spec (num_epochs args) (eval_freq args) ltac:(lia)). nia.
    + pose proof (counters_invariant
                    (Z.to_nat (ceil_div (num_epochs args) (eval_freq args))) args w)
        as Hc.
      cbv zeta in Hc. rewrite (Hrun _ (le_n _)) in Hc. simpl in Hc.
      destruct Hc as [_ Hlen]. now rewrite Hlen.
  - intros Hz Hpos fuel.
    pose proof (counters_invariant fuel args w) as Hc. cbv zeta in Hc.
    unfold train_agent in *. rewrite Hsel in *.
    destruct (loop_stuck cls args Hz Hpos fuel
                (initial_state (construct cls args (load_buffer args w))) eq_refl)
      as (st & Hrun & Hpass).
    rewrite Hrun in Hc. simpl in Hc. destruct Hc as [_ Hlen].
    exists st. split; [exact Hrun | split; [exact Hpass | now rewrite Hlen]].
Qed.

(** C6, as amended. With an algorithm name outside the recognized set, no
    training iteration is ever performed. If the budget
    [num_epochs * num_steps_per_epoch] is positive, the run fails on entering
    the loop, with [agent] unbound at the first [agent.train]; only the buffer
    was loaded and the banner printed. If the budget is not positive, the loop
    body is never entered and the run returns without an error. *)
Theorem unknown_algo (args : Args) (w : World) :
  ~ In (algo args) recognized_algos ->
  (forall fuel, passes (trace (final_state (train_agent fuel args w))) = 0%nat) /\
  (0 < max_timesteps args ->
   forall fuel,
     exists st, train_agent (S fuel) args w = Raised UnboundLocalError st /\
                trace st = [EvLoadBuffer; EvBanner 0]) /\
  (max_timesteps args <= 0 ->
   forall fuel, train_agent fuel args w = Done (initial_state (load_buffer args w))).
Proof.
  intros Hun. apply select_agent_None in Hun.
  assert (Hpos : 0 < max_timesteps args ->
                 forall fuel,
                   exists st, train_agent (S fuel) args w = Raised UnboundLocalError st /\
                              trace st = [EvLoadBuffer; EvBanner 0]).
  { intros Hb fuel. unfold train_agent. rewrite Hun, train_loop_S.
    change (training_iters (initial_state (load_buffer args w))) with 0.
    apply Z.ltb_lt in Hb. rewrite Hb. simpl. eexists. split; reflexivity. }
  assert (Hneg : max_timesteps args <= 0 ->
                 forall fuel,
                   train_agent fuel args w = Done (initial_state (load_buffer args w))).
  { intros Hb fuel. unfold train_agent. rewrite Hun.
    apply Z.ltb_ge in Hb.
    destruct fuel; [rewrite train_loop_O | rewrite train_loop_S];
      change (training_iters (initial_state (load_buffer args w))) with 0;
      now rewrite Hb. }
  split; [|split; assumption].
  intros fuel. destruct (Z.lt_ge_cases 0 (max_timesteps args)) as [Hb | Hb].
  - destruct fuel.
    + unfold train_agent. rewrite Hun, train_loop_O.
      destruct (_ <? _); reflexivity.
    + destruct (Hpos Hb fuel) as (st & -> & Htr). simpl. rewrite Htr. reflexivity.
  - rewrite (Hneg Hb fuel). reflexivity.
Qed.

End Cadence.

(** ** The evaluation history (lines 103-120) *)

Section AppendOnly.
Context `{Collaborators}.

(** C8. The evaluation history is append-only and saved after every append.
    A pass through the loop body with a bound agent and a non-zero
    [num_steps_per_epoch] completes; it appends exactly one four-field record
    to [evaluations], the one [eval_policy] returned for the freshly trained
    agent, leaves the earlier records as they were, and hands the whole new
    history to [np.save]; that save is the first event after the episodes of
    the evaluation, and only the selection step follows it. A pass that
    raises changes neither the history nor the file. Over a run, the history
    at any later point extends the history at any earlier point, it holds one
    record per training burst, namely the records that many passes produce,
    the histories saved are exactly the non-empty prefixes of the final
    history in order, and the file holds the whole history. With a recognized
    algorithm variant and positive [num_steps_per_epoch] and [eval_freq], a
    run that returns has appended [ceil(num_epochs / eval_freq)] records. *)
Theorem history_append_only :
  (forall cls args s,
     num_steps_per_epoch args <> 0 ->
     exists s' pre post,
       cycle (Some cls) args s = inl s' /\
       evaluations s' =
         evaluations s
         ++ [fst (fst (eval_policy
                         (agent_train (eval_freq args * num_steps_per_epoch args)
                                      (batch_size args) (world s))
                         (env_name args) (seed args) (eval_episodes args)))] /\
       eval_file s' = Some (evaluations s') /\
       trace s' = trace s ++ pre ++ EvSaveEval (evaluations s') :: post /\
       saved_histories pre = [] /\ selection_events post) /\
  (forall agent args s,
     match cycle agent args s with
     | inl s' =>
         exists r pre post,
           r = fst (fst (eval_policy
                           (agent_train (eval_freq args * num_steps_per_epoch args)
                                        (batch_size args) (world s))
                           (env_name args) (seed args) (eval_episodes args))) /\
           evaluations s' = evaluations s ++ [r] /\
           eval_file s' = Some (evaluations s') /\
           trace s' = trace s ++ pre ++ EvSaveEval (evaluations s') :: post /\
           saved_histories pre = [] /\ selection_events post
     | inr (_, s') => evaluations s' = evaluations s /\ eval_file s' = eval_file s
     end) /\
  (forall fuel agent args s,
     exists new,
       evaluations (final_state (train_loop fuel agent args s)) = evaluations s ++ new) /\
  (forall fuel args w,
     saved_histories (trace (final_state (train_agent fuel args w))) =
       prefixes (evaluations (final_state (train_agent fuel args w))) /\
     eval_file (final_state (train_agent fuel args w)) =
       match evaluations (final_state (train_agent fuel args w)) with
       | [] => None
       | _ => Some (evaluations (final_state (train_agent fuel args w)))
       end) /\
  (forall fuel args w,
     List.length (evaluations (final_state (train_agent fuel args w))) =
       passes (trace (final_state (train_agent fuel args w))) /\
     evaluations (final_state (train_agent fuel args w)) =
       fst (after_cycles args (passes (trace (final_state (train_agent fuel args w))))
                         (start_world args w))) /\
  (forall args cls w fuel,
     select_agent (algo args) = Some cls ->
     0 < num_steps_per_epoch args -> 0 < eval_freq args ->
     (Z.to_nat (ceil_div (num_epochs args) (eval_freq args)) <= fuel)%nat ->
     List.length (evaluations (final_state (train_agent fuel args w))) =
       Z.to_nat (ceil_div (num_epochs args) (eval_freq args))).
Proof.
  assert (Hpass : forall agent args s,
     match cycle agent args s with
     | inl s' =>
         exists r pre post,
           r = fst (fst (eval_policy
                           (agent_train (eval_freq args * num_steps_per_epoch args)
                                        (batch_size args) (world s))
                           (env_name args) (seed args) (eval_episodes args))) /\
           evaluations s' = evaluations s ++ [r] /\
           eval_file s' = Some (evaluations s') /\
           trace s' = trace s ++ pre ++ EvSaveEval (evaluations s') :: post /\
           saved_histories pre = [] /\ selection_events post
     | inr (_, s') => evaluations s' = evaluations s /\ eval_file s' = eval_file s
     end).
  { intros agent args s. pose proof (cycle_cases agent args s) as Hc. cbv zeta in Hc.
    destruct (cycle agent args s) as [s' | [e s']].
    + destruct Hc as (cls & r & scores & evs & _ & _ & Hev & _ & Hfile & _ & Hevs & Htr & Hr).
      match type of Htr with
      | _ = _ ++ ?a ++ ?b ++ _ => exists r, (a ++ b), evs
      end.
      rewrite Hev in *.
      split; [exact Hr | split; [reflexivity | split; [exact Hfile | split; [|split]]]].
      * rewrite Htr, <- !app_assoc. reflexivity.
      * rewrite saved_histories_app, saved_histories_episodes. reflexivity.
      * subst evs. apply selection_trace_events.
    + destruct Hc as (Hev & _ & Hfile & _). auto. }
  split; [|split; [exact Hpass | split; [|split; [|split]]]].
  - intros cls args s Hnz. specialize (Hpass (Some cls) args s).
    pose proof (cycle_cases (Some cls) args s) as Hc. cbv zeta in Hc.
    destruct (cycle (Some cls) args s) as [s' | [e s']].
    + destruct Hpass as (r & pre & post & -> & Hrest). exists s', pre, post.
      split; [reflexivity | exact Hrest].
    + exfalso. destruct Hc as (_ & _ & _ & [(Hn & _) | (c & _ & Hz & _)]);
        [discriminate | contradiction].
  - intros fuel agent args s. apply evaluations_grow.
  - intros fuel args w. apply history_invariant.
  - intros fuel args w. split; [apply counters_invariant | apply run_history].
  - intros args cls w fuel Hsel Hst Hf Hfuel.
    destruct (run_terminates args cls w Hsel Hst Hf) as (st & Hrun & _ & _ & Hp).
    pose proof (counters_invariant fuel args w) as Hc. cbv zeta in Hc.
    rewrite (Hrun fuel Hfuel) in *. simpl in *. destruct Hc as [_ Hlen].
    now rewrite Hlen.
Qed.

End AppendOnly.

(** ** The loop feeds its evaluations through the selection step *)

Section Bridge.
Context `{Collaborators}.

(** At every point a run can reach, the running best and [best_score.txt] are
    what [consider_all] yields on the evaluations made so far, each paired
    with the epoch logged in its cycle. *)
Lemma run_is_consider_all fuel args w :
  exists l,
    map fst l = evaluations (final_state (train_agent fuel args w)) /\
    sel (final_state (train_agent fuel args w)) =
      sel (consider_all (save_best_model args) (initial_state w) l).
Proof.
  unfold train_agent.
  apply (train_loop_invariant
           (fun s => exists l,
                map fst l = evaluations s /\
                sel s = sel (consider_all (save_best_model args) (initial_state w) l))).
  - intros s (l & Hl & Hs).
    pose proof (cycle_cases (select_agent (algo args)) args s) as Hc.
    cbv zeta in Hc. destruct (cycle _ args s) as [s' | [e s']].
    + destruct Hc as (cls & r & _ & _ & _ & _ & Hev & _ & _ & Hsel & _).
      eexists (l ++ [(r, _)]). split.
      * rewrite map_app, Hl, Hev. reflexivity.
      * rewrite Hsel, Hs, Selection.consider_all_snoc, Selection.sel_consider.
        reflexivity.
    + destruct Hc as (Hev & Hsel & _). exists l. rewrite Hev, Hsel. auto.
  - exists []. split; reflexivity.
Qed.

End Bridge.

(** ** The evaluator's aggregation (lines 152-160) *)

(** C3. [eval_policy] returns the mean and the standard deviation of the
    per-episode raw returns, the normalizer applied once to that mean, and the
    standard deviation of the per-episode normalized scores; there is one
    return per episode. On three episodes returning 10, 20 and 30, with the
    normalizer [r / 100] and the left-to-right [mean] and [std], it returns
    20, 8.16496..., 0.2 and 0.0816496...; the mean of the normalized scores
    would have been a different float, 0.20000000000000004. *)
Theorem evaluator_aggregation :
  (forall (C : Collaborators) (w : World) (name : string) (sd n : Z),
     fst (fst (eval_policy w name sd n)) =
       (let scores := episode_scores w name sd n in
        let env := final_env w name sd n in
        {| eval_res := np_mean scores;
           eval_res_std := np_std scores;
           eval_norm_res := get_normalized_score env (np_mean scores);
           eval_norm_res_std := np_std (map (get_normalized_score env) scores) |}) /\
     List.length (episode_scores w name sd n) = Z.to_nat n) /\
  (let r := fst (fst (@eval_policy scripted stub_episodes "stub" 0 3)) in
   @episode_scores scripted stub_episodes "stub" 0 3 = [10; 20; 30]%float /\
   eval_res r = 20%float /\
   eval_res_std r = 8.1649658092772608%float /\
   eval_norm_res r = 0.2%float /\
   eval_norm_res_std r = 0.081649658092772595%float /\
   (PrimFloat.ltb 8.1649 (eval_res_std r) && PrimFloat.ltb (eval_res_std r) 8.1650)%bool = true /\
   (PrimFloat.ltb 0.08164 (eval_norm_res_std r)
    && PrimFloat.ltb (eval_norm_res_std r) 0.08166)%bool = true /\
   seq_mean (map (fun x => (x / 100)%float) [10; 20; 30]%float)
     = 0.20000000000000004%float /\
   PrimFloat.eqb (eval_norm_res r)
     (seq_mean (map (fun x => (x / 100)%float) [10; 20; 30]%float)) = false).
Proof.
  split.
  - intros C w name sd n. destruct (eval_policy_spec w name sd n) as (Hr & _ & Hlen).
    split; [exact Hr | exact Hlen].
  - vm_compute. repeat split; reflexivity.
Qed.

(** ** Concrete runs *)

Lemma selection_rule_tie :
  best_score_file
    (@consider scripted true
       (@consider scripted true (@initial_state scripted []) (eval_with 0.75) 100)
       (eval_with 0.75) 150)
  = Some (best_res_of 150 (eval_with 0.75)).
Proof.
  apply (@selection_rule scripted true
           (@consider scripted true (@initial_state scripted []) (eval_with 0.75) 100)
           (eval_with 0.75) 150).
  vm_compute. reflexivity.
Defined.

(** After one cycle whose normalized average is -200 that average is the
    maximum so far, yet [best_score.txt] does not exist. *)
Lemma best_below_floor_not_recorded :
  (exists st,
     @train_agent scripted 1 one_cycle_args [[-20000]%float] = Done st /\
     map eval_norm_res (evaluations st) = [(-200)%float] /\
     best_score_file st = None) /\
  best_score_file
    (@consider_all scripted true (@initial_state scripted []) [(eval_with (-200), 1)]) = None.
Proof.
  split; [eexists; split; [vm_compute; reflexivity | split; reflexivity] | reflexivity].
Qed.

Lemma best_is_latest_maximum_sample :
  exists l1 x l2,
    sample_history = l1 ++ x :: l2 /\
    best_score_file (@consider_all scripted true (@initial_state scripted []) sample_history)
      = Some (written x) /\
    best_score (@consider_all scripted true (@initial_state scripted []) sample_history) = score x /\
    Forall (fun y => float_ge (score x) (score y) = true \/ is_nan (score y) = true)
           sample_history /\
    Forall (fun y => float_ge (score y) (score x) = false) l2.
Proof.
  apply (@best_is_latest_maximum scripted true [] sample_history).
  apply Exists_cons_hd. vm_compute. reflexivity.
Defined.

(** On [sample_history] the file ends with the later of the two evaluations
    that reach 0.75, the one of epoch 150. *)
Example sample_history_recorded :
  best_score_file (@consider_all scripted true (@initial_state scripted []) sample_history)
    = Some (best_res_of 150 (eval_with 0.75)).
Proof. vm_compute. reflexivity. Qed.

Lemma sentinel_minus_100_sample :
  best_score_file (final_state (@train_agent scripted 1 one_cycle_args [[-20000]%float]))
    = None /\
  filter is_write_best
    (trace (final_state (@train_agent scripted 1 one_cycle_args [[-20000]%float]))) = [].
Proof.
  apply (proj2 (proj2 (@sentinel_minus_100 scripted))).
  vm_compute. repeat constructor.
Defined.

Lemma cycle_cadence_default :
  exists st,
    @train_agent scripted 10 default_args [] = Done st /\
    passes (trace st) = 10%nat /\
    training_iters st = 500000.
Proof.
  destruct (@cycle_cadence scripted default_args BC [] eq_refl eq_refl eq_refl eq_refl)
    as (st & Hrun & Hpass & _ & Hti & _).
  exists st. split; [apply Hrun; vm_compute; lia | split; [exact Hpass | exact Hti]].
Defined.

Lemma loop_termination_sample :
  (exists st, @train_agent scripted 10 default_args [] = Done st) /\
  (exists st, @train_agent scripted 7 zero_freq_args [] = OutOfFuel st /\
              passes (trace st) = 7%nat /\
              List.length (evaluations st) = 7%nat).
Proof.
  split.
  - destruct (proj1 (@loop_termination scripted default_args BC [] eq_refl))
      as (st & Hrun & _); [vm_compute; discriminate.. |].
    exists st. apply Hrun. vm_compute. lia.
  - apply (proj2 (@loop_termination scripted zero_freq_args BC [] eq_refl));
      reflexivity.
Defined.

(** An unrecognized name with no budget: the run returns normally. *)
Lemma unknown_algo_returns :
  ~ In (algo pcq_no_budget_args) recognized_algos /\
  select_agent (algo pcq_no_budget_args) = None /\
  @train_agent scripted 5 pcq_no_budget_args [] = Done (@initial_state scripted []).
Proof.
  split; [|split; reflexivity].
  apply select_agent_None. reflexivity.
Qed.

Lemma unknown_algo_sample :
  exists st, @train_agent scripted 1 pcq_args [] = Raised UnboundLocalError st /\
             trace st = [EvLoadBuffer; EvBanner 0].
Proof.
  assert (Hun : ~ In (algo pcq_args) recognized_algos).
  { simpl. intros Hin.
    repeat (destruct Hin as [Hin | Hin]; [discriminate Hin|]). exact Hin. }
  destruct (@unknown_algo scripted pcq_args [] Hun) as (_ & Hpos & _).
  apply (Hpos eq_refl 0%nat).
Defined.

(** ** The results directory (lines 202-208) *)

Lemma append_inj_l (p a b : string) : (p ++ a = p ++ b)%string -> a = b.
Proof. induction p as [|c p IH]; simpl; intros Heq; [exact Heq|]. injection Heq. exact IH. Qed.

Lemma starts_with_sep_append (e rest : string) :
  starts_with_sep (e ++ "|" ++ rest) = starts_with_sep (e ++ "|").
Proof. destruct e; reflexivity. Qed.

Lemma py_str_inj (x y : Z) : py_str x = py_str y -> x = y.
Proof.
  unfold py_str. intros Heq.
  assert (Hnn : forall z, Z.to_int z <> Pos Nil /\ Z.to_int z <> Neg Nil).
  { intros z. pose proof (DecimalZ.to_of (Z.to_int z)) as Hn.
    rewrite DecimalZ.of_to in Hn.
    split; intros Hz; rewrite Hz in Hn; discriminate Hn. }
  apply DecimalZ.to_int_inj.
  destruct (Hnn x) as [Hx1 Hx2]. destruct (Hnn y) as [Hy1 Hy2].
  pose proof (NilZero.isi _ Hx1 Hx2) as Ex. pose proof (NilZero.isi _ Hy1 Hy2) as Ey.
  rewrite Heq in Ex. rewrite Ex in Ey. now injection Ey.
Qed.

Lemma string_app_assoc (a b c : string) : ((a ++ b) ++ c = a ++ (b ++ c))%string.
Proof. induction a as [|x a IH]; simpl; [reflexivity | now rewrite IH]. Qed.

Lemma file_name_split format_lr a :
  file_name format_lr a =
    (name_base format_lr a ++ "|" ++ py_str (seed (loop_args a)))%string.
Proof.
  unfold file_name, name_base. rewrite !string_app_assoc. reflexivity.
Qed.

Lemma name_base_with_seed format_lr a s :
  name_base format_lr (with_seed a s) = name_base format_lr a.
Proof. reflexivity. Qed.

Lemma starts_with_sep_base format_lr a rest :
  starts_with_sep (name_base format_lr a ++ rest) =
    starts_with_sep (name_base format_lr a).
Proof.
  unfold name_base. destruct (env_name (loop_args a)); reflexivity.
Qed.

(** The directory of a run is a part that does not depend on the seed,
    followed by ["|"] and the seed in decimal. *)
Lemma results_dir_seed format_lr a :
  exists pre, forall s,
    results_dir format_lr (with_seed a s) = (pre ++ "|" ++ py_str s)%string.
Proof.
  exists (if starts_with_sep (name_base format_lr a) then name_base format_lr a
          else if (String.eqb (output_dir a) "" || ends_with_sep (output_dir a))%bool
               then (output_dir a ++ name_base format_lr a)%string
               else (output_dir a ++ "/" ++ name_base format_lr a)%string).
  intros s. unfold results_dir, path_join.
  rewrite file_name_split, name_base_with_seed, starts_with_sep_base.
  change (output_dir (with_seed a s)) with (output_dir a).
  change (seed (loop_args (with_seed a s))) with s.
  destruct (starts_with_sep (name_base format_lr a)); [reflexivity|].
  destruct (String.eqb (output_dir a) "" || ends_with_sep (output_dir a))%bool;
    rewrite !string_app_assoc; reflexivity.
Qed.

(** X9. Two runs whose command lines differ at most in [--seed] write to the
    same results directory exactly when their seeds are equal. *)
Theorem results_dir_separates_seeds (format_lr : float -> string) (a : CliArgs) (s1 s2 : Z) :
  String.eqb (results_dir format_lr (with_seed a s1))
             (results_dir format_lr (with_seed a s2)) = Z.eqb s1 s2.
Proof.
  destruct (results_dir_seed format_lr a) as (pre & Hpre). rewrite !Hpre.
  destruct (Z.eqb_spec s1 s2) as [-> | Hne].
  - apply String.eqb_refl.
  - apply String.eqb_neq. intros Heq. apply Hne.
    apply py_str_inj. apply append_inj_l in Heq. now apply append_inj_l in Heq.
Qed.

Example default_results_dir :
  results_dir (fun _ => "0.00030") default_cli =
    "results/tests/walker2d-expert-v2|exp_1|linear|T-100|bc|MLP|lr0.00030|0".
Proof. reflexivity. Qed.

(** ** Bookkeeping of the loop (lines 104-119) *)

Lemma filter_save_model_episodes l : filter is_save_model (map EvEpisode l) = [].
Proof. induction l; simpl; auto. Qed.

Lemma nan_not_ge (x b : float) : is_nan x = true -> float_ge x b = false.
Proof.
  unfold is_nan, float_ge. intros Hn.
  destruct (PrimFloat.leb b x) eqn:Hle; [|reflexivity].
  rewrite (PyFloat.leb_refl_r _ _ Hle) in Hn. discriminate.
Qed.

Section Bookkeeping.
Context `{Collaborators}.

(** X3. At every point a run can reach, [training_iters] is the number of
    training bursts made times the burst size
    [eval_freq * num_steps_per_epoch], and [evaluations] holds one record per
    burst. *)
Theorem counters_in_step (fuel : nat) (args : Args) (w : World) :
  training_iters (final_state (train_agent fuel args w)) =
    Z.of_nat (passes (trace (final_state (train_agent fuel args w)))) * burst args /\
  List.length (evaluations (final_state (train_agent fuel args w))) =
    passes (trace (final_state (train_agent fuel args w))).
Proof. apply counters_invariant. Qed.

Lemma loop_raise_cases agent args fuel : forall s,
  (num_steps_per_epoch args = 0 -> 0 <= training_iters s) ->
  match train_loop fuel agent args s with
  | Raised e st =>
      e = UnboundLocalError /\ agent = None /\
      evaluations st = evaluations s /\ passes (trace st) = passes (trace s)
  | _ => True
  end.
Proof.
  induction fuel as [|fuel IH]; intros s Hq.
  - rewrite train_loop_O. destruct (training_iters s <? max_timesteps args); exact I.
  - rewrite train_loop_S.
    destruct (training_iters s <? max_timesteps args) eqn:Hc; [|exact I].
    apply Z.ltb_lt in Hc.
    pose proof (cycle_cases agent args s) as Hcyc. cbv zeta in Hcyc.
    destruct (cycle agent args s) as [s' | [e s']].
    + destruct Hcyc as (cls & _ & _ & _ & Hcls & Hnz & _ & _).
      specialize (IH s' ltac:(intros Hz; contradiction)).
      destruct (train_loop fuel agent args s'); auto.
      destruct IH as (_ & Hn & _). congruence.
    + destruct Hcyc as (Hev & _ & _ & [(Hn & He & _ & Htr) | (c & _ & Hz & _)]).
      * repeat split; auto. rewrite Htr. unfold passes. rewrite filter_app. simpl.
        now rewrite app_nil_r.
      * exfalso. specialize (Hq Hz). unfold max_timesteps in Hc. rewrite Hz in Hc. lia.
Qed.

(** X2. The loop never divides by zero at [training_iters // num_steps_per_epoch],
    whatever the configuration. The only exception [train_agent] raises by
    itself is the unbound [agent] of an unrecognized algorithm name, and it
    comes before any training burst or evaluation. *)
Theorem only_unbound_agent_raises (fuel : nat) (args : Args) (w : World) :
  match train_agent fuel args w with
  | Raised e st =>
      e = UnboundLocalError /\ select_agent (algo args) = None /\
      evaluations st = [] /\ passes (trace st) = 0%nat
  | _ => True
  end.
Proof.
  unfold train_agent.
  match goal with |- match train_loop _ _ _ ?s0 with _ => _ end =>
    pose proof (loop_raise_cases (select_agent (algo args)) args fuel s0
                  ltac:(intros _; simpl; lia)) as Hr;
    destruct (train_loop fuel (select_agent (algo args)) args s0)
  end; auto.
Qed.

End Bookkeeping.

(** ** Termination for every sign of the budget and of the burst *)

Section Termination.
Context `{Collaborators}.

Lemma loop_runs_burst cls args :
  0 < burst args ->
  forall (k i : nat) s,
    training_iters s = Z.of_nat i * burst args ->
    max_timesteps args <= Z.of_nat (i + k) * burst args ->
    (k <> 0%nat -> (Z.of_nat (i + k) - 1) * burst args < max_timesteps args) ->
    exists s',
      (forall fuel, (k <= fuel)%nat -> train_loop fuel (Some cls) args s = Done s') /\
      training_iters s' = Z.of_nat (i + k) * burst args /\
      passes (trace s') = (passes (trace s) + k)%nat.
Proof.
  intros Hb. induction k as [|k IH]; intros i s Hti Hhi Hlo.
  - exists s. rewrite Nat.add_0_r in *. repeat split; auto.
    intros fuel _.
    assert (Hc : (training_iters s <? max_timesteps args) = false)
      by (apply Z.ltb_ge; lia).
    destruct fuel; [rewrite train_loop_O | rewrite train_loop_S]; now rewrite Hc.
  - assert (Hc : (training_iters s <? max_timesteps args) = true).
    { apply Z.ltb_lt. specialize (Hlo ltac:(discriminate)). nia. }
    pose proof (cycle_cases (Some cls) args s) as Hcyc. cbv zeta in Hcyc.
    destruct (cycle (Some cls) args s) as [s1 | [e s1]] eqn:Ecyc.
    + destruct Hcyc as (cls' & r & scores & evs & _ & _ & _ & Hti1 & _ & _ & Hevs & Htr & _).
      pose proof (passes_after_cycle cls' args s s1 scores evs _ r
                    ltac:(subst evs; apply selection_trace_events) Htr) as Hp.
      destruct (IH (S i) s1) as (s' & Hrun & Hti' & Hpass).
      * rewrite Hti1, Hti. unfold burst. lia.
      * replace (S i + k)%nat with (i + S k)%nat by lia. exact Hhi.
      * intros _. replace (S i + k)%nat with (i + S k)%nat by lia.
        apply Hlo. discriminate.
      * exists s'. replace (i + S k)%nat with (S i + k)%nat by lia.
        repeat split; auto.
        -- intros [|fuel] Hle; [lia|]. rewrite train_loop_S, Hc, Ecyc. apply Hrun. lia.
        -- rewrite Hpass, Hp. lia.
    + destruct Hcyc as (_ & _ & _ & [(Hn & _) | (c & _ & Hz & _)]);
        [discriminate | unfold burst in Hb; rewrite Hz in Hb; lia].
Qed.

Lemma loop_stuck_burst cls args :
  burst args <= 0 -> 0 < max_timesteps args ->
  forall fuel s, training_iters s <= 0 ->
    exists s', train_loop fuel (Some cls) args s = OutOfFuel s' /\
               passes (trace s') = (passes (trace s) + fuel)%nat.
Proof.
  intros Hb Hpos. induction fuel as [|fuel IH]; intros s Hti;
    assert (Hc : (training_iters s <? max_timesteps args) = true)
      by (apply Z.ltb_lt; lia);
    [rewrite train_loop_O | rewrite train_loop_S]; rewrite Hc.
  - exists s. split; [reflexivity | lia].
  - pose proof (cycle_cases (Some cls) args s) as Hcyc. cbv zeta in Hcyc.
    destruct (cycle (Some cls) args s) as [s1 | [e s1]].
    + destruct Hcyc as (cls' & r & scores & evs & _ & _ & _ & Hti1 & _ & _ & Hevs & Htr & _).
      pose proof (passes_after_cycle cls' args s s1 scores evs _ r
                    ltac:(subst evs; apply selection_trace_events) Htr) as Hp.
      destruct (IH s1) as (s' & Hrun & Hpass); [unfold burst in Hb; lia|].
      exists s'. split; [exact Hrun | rewrite Hpass, Hp; lia].
    + destruct Hcyc as (_ & _ & _ & [(Hn & _) | (c & _ & Hz0 & _)]);
        [discriminate | unfold max_timesteps in Hpos; rewrite Hz0 in Hpos; lia].
Qed.

(** X4. With a bound agent, the signs of the budget
    [num_epochs * num_steps_per_epoch] and of the burst
    [eval_freq * num_steps_per_epoch] decide whether the run returns, negative
    flags included. A budget that is not positive returns at once, without
    training. A positive burst returns after [ceil(budget / burst)] passes,
    with [training_iters] that many bursts. A positive budget with a burst
    that is zero or negative never returns. *)
Theorem termination_by_sign (args : Args) (cls : AgentClass) (w : World) :
  select_agent (algo args) = Some cls ->
  (max_timesteps args <= 0 ->
   forall fuel,
     train_agent fuel args w =
       Done (initial_state (construct cls args (load_buffer args w)))) /\
  (0 < burst args ->
   exists st,
     (forall fuel,
        (Z.to_nat (ceil_div (max_timesteps args) (burst args)) <= fuel)%nat ->
        train_agent fuel args w = Done st) /\
     passes (trace st) = Z.to_nat (ceil_div (max_timesteps args) (burst args)) /\
     training_iters st =
       Z.of_nat (Z.to_nat (ceil_div (max_timesteps args) (burst args))) * burst args) /\
  (burst args <= 0 -> 0 < max_timesteps args ->
   forall fuel,
     exists st, train_agent fuel args w = OutOfFuel st /\ passes (trace st) = fuel).
Proof.
  intros Hsel. unfold train_agent. rewrite Hsel. split; [|split].
  - intros Hm fuel.
    assert (Hc : (0 <? max_timesteps args) = false) by (apply Z.ltb_ge; exact Hm).
    destruct fuel; [rewrite train_loop_O | rewrite train_loop_S];
      change (training_iters (initial_state (construct cls args (load_buffer args w))))
        with 0; now rewrite Hc.
  - intros Hb.
    pose proof (ceil_div_spec (max_timesteps args) (burst args) Hb) as Hceil.
    destruct (loop_runs_burst cls args Hb
                (Z.to_nat (ceil_div (max_timesteps args) (burst args))) 0
                (initial_state (construct cls args (load_buffer args w))))
      as (st & Hrun & Hti & Hpass).
    + reflexivity.
    + simpl. nia.
    + simpl. intros Hk. nia.
    + exists st. repeat split; auto.
  - intros Hb Hpos fuel.
    destruct (loop_stuck_burst cls args Hb Hpos fuel
                (initial_state (construct cls args (load_buffer args w))))
      as (st & Hrun & Hpass); [simpl; lia|].
    exists st. split; [exact Hrun | exact Hpass].
Qed.

(** More fuel continues a run that was still looping and changes nothing
    for one that had stopped. *)
Lemma train_loop_add agent args a : forall b s,
  train_loop (a + b) agent args s =
    match train_loop a agent args s with
    | OutOfFuel s' => train_loop b agent args s'
    | o => o
    end.
Proof.
  induction a as [|a IH]; intros b s.
  - rewrite train_loop_O. simpl (0 + b)%nat.
    destruct (training_iters s <? max_timesteps args) eqn:Hc; [reflexivity|].
    destruct b; [rewrite train_loop_O | rewrite train_loop_S]; now rewrite Hc.
  - simpl (S a + b)%nat. rewrite !train_loop_S.
    destruct (training_iters s <? max_timesteps args); [|reflexivity].
    destruct (cycle agent args s) as [s' | [e s']]; [apply IH | reflexivity].
Qed.

Lemma best_score_grows agent args fuel s :
  PrimFloat.leb (best_score s) (best_score s) = true ->
  PrimFloat.leb (best_score s) (best_score (final_state (train_loop fuel agent args s)))
    = true.
Proof.
  intros Hs.
  apply (train_loop_invariant
           (fun s' => PrimFloat.leb (best_score s) (best_score s') = true));
    [|exact Hs].
  intros s' Hs'. pose proof (cycle_cases agent args s') as Hc.
  cbv zeta in Hc. destruct (cycle agent args s') as [s2 | [e s2]].
  - destruct Hc as (_ & r & _ & _ & _ & _ & _ & _ & _ & Hsel & _).
    unfold sel, select, score in Hsel. simpl in Hsel.
    destruct (float_ge (eval_norm_res r) (best_score s')) eqn:Hge;
      injection Hsel as -> _; [|exact Hs'].
    eapply PyFloat.leb_trans; [exact Hs' | exact Hge].
  - destruct Hc as (_ & Hsel & _). unfold sel in Hsel. injection Hsel as -> _. exact Hs'.
Qed.

(** X7. As a run goes on, the running best never decreases and the history
    only grows at its end: what a run has reached with some fuel, compared
    with what it has reached with more. *)
Theorem progress_is_monotone (fuel more : nat) (args : Args) (w : World) :
  PrimFloat.leb (best_score (final_state (train_agent fuel args w)))
                (best_score (final_state (train_agent (fuel + more) args w))) = true /\
  exists new,
    evaluations (final_state (train_agent (fuel + more) args w)) =
      evaluations (final_state (train_agent fuel args w)) ++ new.
Proof.
  pose proof (best_score_floor fuel args w) as Hfloor.
  apply PyFloat.leb_refl_r in Hfloor.
  unfold train_agent in *. rewrite train_loop_add.
  destruct (train_loop fuel _ args _) as [s | e s | s]; simpl in *.
  - split; [exact Hfloor | exists []; now rewrite app_nil_r].
  - split; [exact Hfloor | exists []; now rewrite app_nil_r].
  - split; [now apply best_score_grows | apply evaluations_grow].
Qed.

End Termination.

(** ** What the selection step leaves on disk over a run *)

Section OnDisk.
Context `{Collaborators}.

Lemma cycle_saved_model agent args s :
  match cycle agent args s with
  | inl s' =>
      exists r w',
        evaluations s' = evaluations s ++ [r] /\
        saved_model s' =
          if (float_ge (eval_norm_res r) (best_score s) && save_best_model args)%bool
          then Some w' else saved_model s
  | inr (_, s') => saved_model s' = saved_model s
  end.
Proof.
  unfold cycle. destruct agent as [cls|]; [|reflexivity].
  destruct (num_steps_per_epoch args =? 0); [reflexivity|].
  destruct (eval_policy _ _ _ _) as [[r w2] evs].
  exists r, w2. unfold consider. simpl.
  destruct (float_ge (eval_norm_res r) (best_score s)); simpl;
    [destruct (save_best_model args)|]; auto.
Qed.

Lemma written_records_app a b :
  written_records (a ++ b) = written_records a ++ written_records b.
Proof.
  induction a as [|e a IH]; simpl; [reflexivity|].
  destruct e; simpl; now rewrite ?IH.
Qed.

Lemma written_records_episodes l : written_records (map EvEpisode l) = [].
Proof. induction l; simpl; auto. Qed.

Lemma filter_selection_episodes l : filter is_selection (map EvEpisode l) = [].
Proof. induction l; simpl; auto. Qed.

(** What one completed pass adds to the selection events and to the records
    written. *)
Lemma cycle_selection_trace agent args s :
  match cycle agent args s with
  | inl s' =>
      exists r e,
        evaluations s' = evaluations s ++ [r] /\
        e = (training_iters s + eval_freq args * num_steps_per_epoch args)
            / num_steps_per_epoch args /\
        sel s' = select (sel s) (r, e) /\
        filter is_selection (trace s') =
          filter is_selection (trace s)
          ++ selection_trace (save_best_model args) (best_score s) r e /\
        written_records (trace s') =
          written_records (trace s)
          ++ (if float_ge (eval_norm_res r) (best_score s)
              then [best_res_of e r] else [])
  | inr (_, s') =>
      filter is_selection (trace s') = filter is_selection (trace s) /\
      written_records (trace s') = written_records (trace s)
  end.
Proof.
  pose proof (cycle_cases agent args s) as Hc. cbv zeta in Hc.
  destruct (cycle agent args s) as [s' | [x s']].
  - destruct Hc as (cls & r & scores & evs & _ & _ & Hev & _ & _ & Hsel & Hevs & Htr & _).
    exists r, ((training_iters s + eval_freq args * num_steps_per_epoch args)
               / num_steps_per_epoch args).
    split; [exact Hev | split; [reflexivity | split; [exact Hsel|]]].
    rewrite Htr, !filter_app, !written_records_app, filter_selection_episodes,
      written_records_episodes, Hevs.
    unfold selection_trace.
    destruct (float_ge (eval_norm_res r) (best_score s));
      destruct (save_best_model args); split; reflexivity.
  - destruct Hc as (_ & _ & _ & [(_ & _ & _ & ->) | (c & _ & _ & _ & ->)]);
      rewrite filter_app, written_records_app; simpl; rewrite !app_nil_r; auto.
Qed.

Lemma checkpoint_invariant fuel args w :
  let st := final_state (train_agent fuel args w) in
  map is_save_model (filter is_selection (trace st)) =
    List.concat (repeat (if save_best_model args then [true; false] else [false])
                        (List.length (written_records (trace st)))).
Proof.
  unfold train_agent.
  apply (train_loop_invariant
           (fun s =>
              map is_save_model (filter is_selection (trace s)) =
                List.concat
                  (repeat (if save_best_model args then [true; false] else [false])
                          (List.length (written_records (trace s))))));
    [|reflexivity].
  intros s Hs.
  pose proof (cycle_selection_trace (select_agent (algo args)) args s) as Hc.
  destruct (cycle _ args s) as [s' | [x s']].
  - destruct Hc as (r & e & _ & _ & _ & Hf & Hw). rewrite Hf, Hw.
    rewrite map_app, length_app, repeat_app, concat_app, Hs.
    unfold selection_trace.
    destruct (float_ge (eval_norm_res r) (best_score s));
      destruct (save_best_model args); reflexivity.
  - destruct Hc as [Hf Hw]. now rewrite Hf, Hw.
Qed.

(** X5. Among the events of the selection step, in order: without
    [--save_best_model] a run only ever writes [best_score.txt] and never
    calls [agent.save_model]; with it, every write of [best_score.txt] comes
    right after one call of [agent.save_model], and there is no other call. *)
Theorem checkpoint_gating (fuel : nat) (args : Args) (w : World) :
  map is_save_model
      (filter is_selection (trace (final_state (train_agent fuel args w)))) =
    List.concat
      (repeat (if save_best_model args then [true; false] else [false])
              (List.length
                 (written_records (trace (final_state (train_agent fuel args w)))))).
Proof. apply checkpoint_invariant. Qed.

Lemma best_file_invariant fuel args w :
  let st := final_state (train_agent fuel args w) in
  (training_iters st = Z.of_nat (List.length (evaluations st)) * burst args) /\
  Forall (fun b =>
            exists k r,
              nth_error (evaluations st) k = Some r /\
              b = best_res_of (Z.of_nat (S k) * eval_freq args) r)
         (written_records (trace st)) /\
  best_score st =
    match last (map Some (written_records (trace st))) None with
    | None => (-100)%float
    | Some b => best_normalized_score_avg b
    end.
Proof.
  unfold train_agent.
  apply (train_loop_invariant_guarded
           (fun s =>
              (training_iters s = Z.of_nat (List.length (evaluations s)) * burst args) /\
              Forall (fun b =>
                        exists k r,
                          nth_error (evaluations s) k = Some r /\
                          b = best_res_of (Z.of_nat (S k) * eval_freq args) r)
                     (written_records (trace s)) /\
              best_score s =
                match last (map Some (written_records (trace s))) None with
                | None => (-100)%float
                | Some b => best_normalized_score_avg b
                end));
    [|repeat split; constructor].
  intros s (Hti & Hall & Hbest) Hguard.
  pose proof (cycle_cases (select_agent (algo args)) args s) as Hc.
  pose proof (cycle_selection_trace (select_agent (algo args)) args s) as Hs.
  cbv zeta in Hc. destruct (cycle _ args s) as [s' | [x s']].
  - destruct Hc as (cls & r0 & scores & evs & _ & Hnz & Hev0 & Hti' & _).
    destruct Hs as (r & e & Hev & He & Hsel & _ & Hw).
    assert (Hep : e = Z.of_nat (S (List.length (evaluations s))) * eval_freq args).
    { rewrite He, Hti. unfold burst.
      replace (Z.of_nat (List.length (evaluations s))
               * (eval_freq args * num_steps_per_epoch args)
               + eval_freq args * num_steps_per_epoch args)
        with (Z.of_nat (S (List.length (evaluations s))) * eval_freq args
              * num_steps_per_epoch args) by lia.
      apply Z.div_mul. exact Hnz. }
    assert (Hold : Forall (fun b =>
                             exists k r1,
                               nth_error (evaluations s') k = Some r1 /\
                               b = best_res_of (Z.of_nat (S k) * eval_freq args) r1)
                          (written_records (trace s))).
    { eapply Forall_impl; [|exact Hall]. intros b (k & r1 & Hk & Hb).
      exists k, r1. split; [|exact Hb].
      rewrite Hev, nth_error_app1; [exact Hk|]. apply nth_error_Some. congruence. }
    split; [|split].
    + rewrite Hti', Hev, length_app, Hti, Nat2Z.inj_add. unfold burst. simpl. lia.
    + rewrite Hw. apply Forall_app. split; [exact Hold|].
      destruct (float_ge (eval_norm_res r) (best_score s)); constructor; [|constructor].
      exists (List.length (evaluations s)), r. split; [|now rewrite Hep].
      rewrite Hev, nth_error_app2, Nat.sub_diag; [reflexivity | lia].
    + rewrite Hw. unfold sel, select, score in Hsel. simpl in Hsel.
      destruct (float_ge (eval_norm_res r) (best_score s));
        injection Hsel as Hb _; rewrite Hb.
      * rewrite map_app. simpl. rewrite last_last. reflexivity.
      * rewrite app_nil_r. exact Hbest.
  - destruct Hc as (Hev & Hsel & _ & [(_ & _ & Hti' & _) | (c & _ & Hz & _)]).
    + destruct Hs as [_ Hw]. unfold sel in Hsel. injection Hsel as Hb _.
      rewrite Hti', Hev, Hb, Hw. repeat split; assumption.
    + exfalso. unfold max_timesteps, burst in *. rewrite Hz in *. lia.
Qed.

(** X6. Every record a run writes to [best_score.txt] reports an evaluation
    of that run: its four scores are those of some record of [evaluations],
    and its epoch is the position of that record (counted from 1) times
    [eval_freq]. The running best is the normalized average of the record
    written last, and still -100 as long as the run has written none. *)
Theorem best_file_in_history (fuel : nat) (args : Args) (w : World) :
  Forall (fun b =>
            exists k r,
              nth_error (evaluations (final_state (train_agent fuel args w))) k = Some r /\
              b = best_res_of (Z.of_nat (S k) * eval_freq args) r)
         (written_records (trace (final_state (train_agent fuel args w)))) /\
  best_score (final_state (train_agent fuel args w)) =
    match last (map Some (written_records (trace (final_state (train_agent fuel args w)))))
               None with
    | None => (-100)%float
    | Some b => best_normalized_score_avg b
    end.
Proof. apply best_file_invariant. Qed.

Lemma nan_run_invariant fuel args w :
  let st := final_state (train_agent fuel args w) in
  Forall (fun r => is_nan (eval_norm_res r) = true) (evaluations st) ->
  best_score st = (-100)%float /\ best_score_file st = None /\
  saved_model st = None /\ filter is_write_best (trace st) = [].
Proof.
  unfold train_agent.
  apply (train_loop_invariant
           (fun s =>
              Forall (fun r => is_nan (eval_norm_res r) = true) (evaluations s) ->
              best_score s = (-100)%float /\ best_score_file s = None /\
              saved_model s = None /\ filter is_write_best (trace s) = []));
    [|now simpl].
  intros s Hs.
  pose proof (cycle_cases (select_agent (algo args)) args s) as Hc.
  pose proof (cycle_saved_model (select_agent (algo args)) args s) as Hm.
  cbv zeta in Hc. destruct (cycle _ args s) as [s' | [e s']].
  - destruct Hc as (cls & r & scores & evs & _ & _ & Hev & _ & _ & Hsel & Hevs & Htr & _).
    destruct Hm as (r' & w' & Hev' & Hsaved).
    rewrite Hev in Hev'. apply app_inj_tail in Hev'. destruct Hev' as [_ <-].
    rewrite Hev. intros Hall. apply Forall_app in Hall. destruct Hall as [Hall Hr].
    inversion Hr as [|? ? Hnan _]; subst.
    destruct (Hs Hall) as (Hb & Hf & Hsm & Hw).
    pose proof (nan_not_ge _ (best_score s) Hnan) as Hge.
    unfold sel, select, score, selection_trace in *. simpl in Hsel.
    rewrite Hge in *. simpl in Hsaved. injection Hsel as -> ->.
    repeat split; auto; [congruence|].
    rewrite Htr, !filter_app, Hw, filter_write_best_episodes. reflexivity.
  - destruct Hc as (Hev & Hsel & _ & Htr). rewrite Hev. intros Hall.
    destruct (Hs Hall) as (Hb & Hf & Hsm & Hw).
    unfold sel in Hsel. injection Hsel as -> ->.
    repeat split; auto; [congruence|].
    destruct Htr as [(_ & _ & _ & ->) | (c & _ & _ & _ & ->)];
      rewrite filter_app, Hw; reflexivity.
Qed.

(** X1. An evaluation whose normalized average is NaN is never selected: the
    selection step leaves any state as it is. A run all of whose normalized
    averages are NaN writes neither [best_score.txt] nor a checkpoint. *)
Theorem nan_never_selected :
  (forall save s r e,
     is_nan (eval_norm_res r) = true -> consider save s r e = s) /\
  (forall fuel args w,
     Forall (fun r => is_nan (eval_norm_res r) = true)
            (evaluations (final_state (train_agent fuel args w))) ->
     best_score_file (final_state (train_agent fuel args w)) = None /\
     saved_model (final_state (train_agent fuel args w)) = None /\
     filter is_write_best (trace (final_state (train_agent fuel args w))) = []).
Proof.
  split.
  - intros save s r e Hnan. unfold consider.
    now rewrite (nan_not_ge _ (best_score s) Hnan).
  - intros fuel args w Hall.
    destruct (nan_run_invariant fuel args w Hall) as (_ & Hf & Hm & Hw). auto.
Qed.

Lemma no_episodes_invariant fuel args w :
  eval_episodes args <= 0 ->
  (forall env, is_nan (get_normalized_score env (np_mean [])) = true) ->
  Forall (fun r => is_nan (eval_norm_res r) = true)
         (evaluations (final_state (train_agent fuel args w))).
Proof.
  intros Hn Hnan. unfold train_agent.
  apply (train_loop_invariant
           (fun s => Forall (fun r => is_nan (eval_norm_res r) = true) (evaluations s)));
    [|constructor].
  intros s Hs.
  pose proof (cycle_cases (select_agent (algo args)) args s) as Hc.
  cbv zeta in Hc. destruct (cycle _ args s) as [s' | [e s']].
  - destruct Hc as (cls & r & _ & _ & _ & _ & Hev & _ & _ & _ & _ & _ & Hr).
    rewrite Hev. apply Forall_app. split; [exact Hs|]. constructor; [|constructor].
    match type of Hr with
    | _ = fst (fst (eval_policy ?w1 ?nm ?sd ?n)) =>
        destruct (eval_policy_spec w1 nm sd n) as (Hspec & _ & Hlen);
        rewrite <- Hr in Hspec;
        destruct (episode_scores w1 nm sd n) as [|x l] eqn:Hsc
    end.
    + rewrite Hspec. simpl. apply Hnan.
    + exfalso. simpl in Hlen. lia.
  - destruct Hc as (Hev & _). now rewrite Hev.
Qed.

(** X8. With [eval_episodes <= 0] no episode is played and every evaluation
    aggregates the empty list. When the normalized mean of the empty list is
    NaN, as with NumPy's [mean], every record of the history has a NaN
    normalized average and the run writes neither [best_score.txt] nor a
    checkpoint, however long it trains. *)
Theorem no_episodes_no_best (fuel : nat) (args : Args) (w : World) :
  eval_episodes args <= 0 ->
  (forall env, is_nan (get_normalized_score env (np_mean [])) = true) ->
  Forall (fun r => is_nan (eval_norm_res r) = true)
         (evaluations (final_state (train_agent fuel args w))) /\
  best_score_file (final_state (train_agent fuel args w)) = None /\
  saved_model (final_state (train_agent fuel args w)) = None.
Proof.
  intros Hn Hnan.
  pose proof (no_episodes_invariant fuel args w Hn Hnan) as Hall.
  destruct (nan_run_invariant fuel args w Hall) as (_ & Hf & Hm & _). auto.
Qed.

End OnDisk.

(** ** Concrete runs with negative flags and without episodes *)

Lemma termination_by_sign_sample :
  (exists st, @train_agent scripted 2 negative_flags_args [] = Done st /\
              passes (trace st) = 2%nat) /\
  (exists st, @train_agent scripted 5 negative_freq_args [] = OutOfFuel st /\
              passes (trace st) = 5%nat).
Proof.
  split.
  - destruct (@termination_by_sign scripted negative_flags_args BC [] eq_refl)
      as (_ & Hpos & _).
    destruct (Hpos eq_refl) as (st & Hrun & Hpass & _).
    exists st. split; [apply Hrun; vm_compute; lia | exact Hpass].
  - destruct (@termination_by_sign scripted negative_freq_args BC [] eq_refl)
      as (_ & _ & Hneg).
    apply Hneg; [vm_compute; discriminate | reflexivity].
Defined.

Example no_episode_history :
  List.length (evaluations (final_state (@train_agent scripted 3 no_episode_args []))) = 3%nat.
Proof. reflexivity. Qed.

Lemma no_episodes_sample :
  Forall (fun r => is_nan (eval_norm_res r) = true)
         (evaluations (final_state (@train_agent scripted 3 no_episode_args []))) /\
  best_score_file (final_state (@train_agent scripted 3 no_episode_args [])) = None /\
  saved_model (final_state (@train_agent scripted 3 no_episode_args [])) = None.
Proof.
  apply (@no_episodes_no_best scripted 3%nat no_episode_args []).
  - vm_compute. discriminate.
  - intros env. vm_compute. reflexivity.
Defined.

(** ** Where the results directory lies (lines 202-208) *)




(** ** Runs with an unrecognized algorithm name and positive flags *)

(** With the flags 500 / 1000 / 50 and the name ['pcq'], ten bursts are due,
    yet no burst is ever made and the run raises in its first pass. *)
Lemma cycle_cadence_needs_agent :
  0 < num_epochs pcq_args /\ 0 < num_steps_per_epoch pcq_args /\
  0 < eval_freq pcq_args /\
  Z.to_nat (ceil_div (num_epochs pcq_args) (eval_freq pcq_args)) = 10%nat /\
  (forall fuel,
     passes (trace (final_state (@train_agent scripted fuel pcq_args []))) = 0%nat /\
     evaluations (final_state (@train_agent scripted fuel pcq_args [])) = []) /\
  (forall fuel,
     @train_agent scripted (S fuel) pcq_args [] =
       Raised UnboundLocalError
         (mkState [] [] 0 (-100)%float None None None [EvLoadBuffer; EvBanner 0])).
Proof.
  repeat split; try reflexivity; destruct fuel; reflexivity.
Qed.

(** With the name ['pcq'] the loop ends by raising in its first pass: after no
    completed pass where ten are due, and also with a zero burst and a
    positive budget, where it would otherwise loop for ever. *)
Lemma loop_termination_needs_agent :
  (1 <=? num_steps_per_epoch pcq_args) = true /\
  (1 <=? eval_freq pcq_args) = true /\
  Z.to_nat (ceil_div (num_epochs pcq_args) (eval_freq pcq_args)) = 10%nat /\
  (forall fuel,
     passes (trace (final_state (@train_agent scripted fuel pcq_args []))) = 0%nat) /\
  eval_freq pcq_zero_freq_args * num_steps_per_epoch pcq_zero_freq_args = 0 /\
  0 < num_epochs pcq_zero_freq_args * num_steps_per_epoch pcq_zero_freq_args /\
  (forall fuel,
     @train_agent scripted (S fuel) pcq_zero_freq_args [] =
       Raised UnboundLocalError
         (mkState [] [] 0 (-100)%float None None None [EvLoadBuffer; EvBanner 0])).
Proof.
  repeat split; try reflexivity; destruct fuel; reflexivity.
Qed.

(** Three cycles on scripted episodes: three records, the last save holding
    all of them. *)
Lemma history_append_only_sample :
  List.length
    (evaluations (final_state (@train_agent scripted 5 three_cycle_args stub_episodes)))
    = 3%nat.
Proof.
  apply (proj2 (proj2 (proj2 (proj2 (proj2 (@history_append_only scripted)))))
           three_cycle_args BC_W stub_episodes 5%nat eq_refl eq_refl eq_refl).
  vm_compute. lia.
Defined.

Example three_cycle_history :
  map eval_res
      (evaluations (final_state (@train_agent scripted 5 three_cycle_args stub_episodes)))
    = [10; 20; 30]%float /\
  saved_histories
    (trace (final_state (@train_agent scripted 5 three_cycle_args stub_episodes)))
    = prefixes
        (evaluations (final_state (@train_agent scripted 5 three_cycle_args stub_episodes))).
Proof. split; vm_compute; reflexivity. Qed.
